(** * TriageSense backend: the model-call chain, the response contract,
      the diagnosis and transcription pipelines and the wait-time resolver.

    The development embeds the JavaScript of
    [backend/services/llmService.js], [backend/services/scraperService.js]
    and [backend/services/waittimeService.js] and proves properties of it.

    Conventions.
    - A JavaScript string is the list of its UTF-16 code units.
    - A caught exception is a value of [Outcome]; [async] functions are
      run to completion one after the other (a single request at a time).
    - What the engine or the network decides ([JSON.parse],
      [String.prototype.toLowerCase] outside Basic Latin, the remote model,
      the scraped web pages) enters the model as an oracle. *)

From Stdlib Require Import List ZArith NArith QArith Ascii String Bool Lia.
From Stdlib Require Import Qround Permutation SpecFloat.
From Stdlib Require Floats Uint63 DecimalString.
Import PrimFloat.
Import ListNotations.

Set Implicit Arguments.
Set Warnings "-register-all".
Open Scope bool_scope.

(* ================================================================== *)
(** * Part I. Definitions *)
(* ================================================================== *)

(** ** JavaScript strings *)

Definition jsstring := list N.

(** [js "abc"] is the JavaScript string literal ['abc'] (Basic Latin). *)
Definition js (s : string) : jsstring :=
  map N_of_ascii (list_ascii_of_string s).

Fixpoint str_eqb (a b : jsstring) : bool :=
  match a, b with
  | [], [] => true
  | x :: a', y :: b' => N.eqb x y && str_eqb a' b'
  | _, _ => false
  end.

(** The strings of an array that are [===] to [x]: [arr.includes(x)]. *)
Definition includes (arr : list jsstring) (x : jsstring) : bool :=
  existsb (str_eqb x) arr.

(** A string is truthy when it is not empty. *)
Definition nonEmpty (s : jsstring) : bool :=
  match s with [] => false | _ :: _ => true end.

Fixpoint startsWith (p s : jsstring) : bool :=
  match p, s with
  | [], _ => true
  | x :: p', y :: s' => N.eqb x y && startsWith p' s'
  | _ :: _, [] => false
  end.

(** [hay.includes(needle)] on strings. *)
Fixpoint str_includes (hay needle : jsstring) : bool :=
  startsWith needle hay ||
  match hay with
  | [] => false
  | _ :: hay' => str_includes hay' needle
  end.

(** The class [\s] of a regular expression without the [u] flag, which is
    also what [trim] strips: WhiteSpace and LineTerminator. *)
Definition isWhiteSpace (c : N) : bool :=
  ((9 <=? c) && (c <=? 13) || (c =? 32) || (c =? 0xA0) || (c =? 0x1680)
   || (0x2000 <=? c) && (c <=? 0x200A) || (c =? 0x2028) || (c =? 0x2029)
   || (c =? 0x202F) || (c =? 0x205F) || (c =? 0x3000) || (c =? 0xFEFF))%N.

Fixpoint trimStart (s : jsstring) : jsstring :=
  match s with
  | c :: s' => if isWhiteSpace c then trimStart s' else s
  | [] => []
  end.

Definition trimEnd (s : jsstring) : jsstring := rev (trimStart (rev s)).

Definition trim (s : jsstring) : jsstring := trimEnd (trimStart s).

(** [s.split(sep)] for a one-unit separator: always at least one piece. *)
Fixpoint split (sep : N) (s : jsstring) : list jsstring :=
  match s with
  | [] => [[]]
  | c :: s' =>
      if N.eqb c sep then [] :: split sep s'
      else match split sep s' with
           | w :: ws => (c :: w) :: ws
           | [] => [[c]]
           end
  end.

Fixpoint join (sep : jsstring) (l : list jsstring) : jsstring :=
  match l with
  | [] => []
  | [x] => x
  | x :: l' => x ++ sep ++ join sep l'
  end.

(** [s.indexOf(c)]: [None] stands for [-1]. *)
Fixpoint indexOf (c : N) (s : jsstring) : option nat :=
  match s with
  | [] => None
  | x :: s' =>
      if N.eqb x c then Some O
      else match indexOf c s' with
           | Some i => Some (S i)
           | None => None
           end
  end.

(** [s.lastIndexOf(c)]. *)
Fixpoint lastIndexOf (c : N) (s : jsstring) : option nat :=
  match s with
  | [] => None
  | x :: s' =>
      match lastIndexOf c s' with
      | Some i => Some (S i)
      | None => if N.eqb x c then Some O else None
      end
  end.

(** [s.slice(from, to)] for [0 <= from] and [0 <= to]. *)
Definition slice (from to : nat) (s : jsstring) : jsstring :=
  firstn (to - from) (skipn from s).

(** ** Numbers and JSON values *)

(** A double is [NaN], an infinity, or the rational it denotes (the two
    zeros are not told apart: nothing below does). *)
Inductive number : Type :=
| NaN
| Infinity (negative : bool)
| Finite (q : Q).

Definition num (z : Z) : number := Finite (inject_Z z).

(** [Number.isInteger]. *)
Definition Number_isInteger (x : number) : bool :=
  match x with
  | Finite q => Qeq_bool q (inject_Z (Qfloor q))
  | _ => false
  end.

(** [x < y] on numbers, false as soon as one side is [NaN]. *)
Definition num_lt (x y : number) : bool :=
  match x, y with
  | NaN, _ | _, NaN => false
  | Infinity true, Infinity true => false
  | Infinity true, _ => true
  | _, Infinity true => false
  | Infinity false, _ => false
  | _, Infinity false => true
  | Finite p, Finite q => negb (Qle_bool q p)
  end.

Definition num_gt (x y : number) : bool := num_lt y x.

(** What [JSON.parse] returns. *)
Inductive json : Type :=
| JNull
| JBool (b : bool)
| JNum (n : number)
| JStr (s : jsstring)
| JArr (items : list json)
| JObj (fields : list (jsstring * json)).

(** A JavaScript value read from parsed data: [None] is [undefined]. *)
Definition value := option json.

Fixpoint lookup {A} (k : jsstring) (m : list (jsstring * A)) : option A :=
  match m with
  | [] => None
  | (k', v) :: m' => if str_eqb k k' then Some v else lookup k m'
  end.

(** [v?.k] for data that came out of [JSON.parse] (arrays have no such
    own property, primitives neither; strings only have [length] and
    indices, which no caller below asks for). *)
Definition prop (v : value) (k : jsstring) : value :=
  match v with
  | Some (JObj fields) => lookup k fields
  | _ => None
  end.

(** [typeof v === 'string' ? v : ...] as a partial projection. *)
Definition asString (v : value) : option jsstring :=
  match v with
  | Some (JStr s) => Some s
  | _ => None
  end.

(** Truthiness of a value. *)
Definition truthy (v : value) : bool :=
  match v with
  | None | Some JNull => false
  | Some (JBool b) => b
  | Some (JNum NaN) => false
  | Some (JNum (Infinity _)) => true
  | Some (JNum (Finite q)) => negb (Qeq_bool q 0)
  | Some (JStr s) => nonEmpty s
  | Some (JArr _) | Some (JObj _) => true
  end.

(** ** Exceptions *)

(** An [Error] object with the properties the services read or set. *)
Record Error : Type := mkError {
  name : jsstring;
  message : jsstring;
  status : option number;          (* set by the model SDK *)
  statusCode : option Z;           (* set by the services *)
  publicMessage : option jsstring  (* set by the services *)
}.

(** [new Error(msg)]. *)
Definition newError (msg : jsstring) : Error :=
  mkError (js "Error") msg None None None.

(** [const err = new Error(msg); err.statusCode = c; err.publicMessage = p]. *)
Definition publicError (msg : jsstring) (c : Z) (p : jsstring) : Error :=
  mkError (js "Error") msg None (Some c) (Some p).

(** [err?.message || String(err)]: with an empty message
    [Error.prototype.toString] gives the name. *)
Definition messageOf (e : Error) : jsstring :=
  if nonEmpty (message e) then message e else name e.

Inductive Outcome (A : Type) : Type :=
| Ok (a : A)
| Throw (e : Error).

Arguments Ok {A} a.
Arguments Throw {A} e.

(** ** The host: what the engine decides *)

Class Host : Type := {
  (** [String.prototype.toLowerCase] (Unicode case mapping). *)
  toLowerCase : jsstring -> jsstring;
  (** [JSON.parse], throwing a [SyntaxError]. *)
  JSON_parse : jsstring -> Outcome json;
  (** [Number(s)] on a string (StringToNumber). *)
  StringToNumber : jsstring -> number;
  (** [Number(o)] on an array or an object (ToPrimitive first, which
      throws a [TypeError] when no conversion method is callable). *)
  ObjectToNumber : json -> Outcome number
}.

(** [toLowerCase] on Basic Latin. *)
Definition asciiToLowerCase (s : jsstring) : jsstring :=
  map (fun c => if (65 <=? c) && (c <=? 90) then c + 32 else c)%N s.

(** ** scraperService.js: matching a hospital name *)

Section Scraper.
Context {host : Host}.

(** The characters [a-z0-9\s] kept by [normalizeName]. *)
Definition isNameChar (c : N) : bool :=
  ((97 <=? c) && (c <=? 122) || (48 <=? c) && (c <=? 57))%N || isWhiteSpace c.

(** [.replace(/\s+/g, ' ')]. *)
Fixpoint collapseSpaces (s : jsstring) : jsstring :=
  match s with
  | [] => []
  | c :: s' =>
      if isWhiteSpace c then
        match s' with
        | d :: _ => if isWhiteSpace d then collapseSpaces s'
                    else 32%N :: collapseSpaces s'
        | [] => [32%N]
        end
      else c :: collapseSpaces s'
  end.

Definition normalizeName (name : jsstring) : jsstring :=
  trim (collapseSpaces (filter isNameChar (toLowerCase name))).

(** [new Set(words)]: first occurrences, in order. *)
Fixpoint Set_of (seen words : list jsstring) : list jsstring :=
  match words with
  | [] => []
  | w :: ws =>
      if includes seen w then Set_of seen ws
      else w :: Set_of (w :: seen) ws
  end.

Definition longWords (s : jsstring) : list jsstring :=
  Set_of [] (filter (fun w => Nat.ltb 2 (List.length w)) (split 32 s)).

(** The quotient of two word counts, as the rational it is (the double
    division rounds it, which keeps the order of two scores as long as the
    product of the two denominators stays below 2^53). *)
Definition overlapScore (a b : jsstring) : Q :=
  let wordsA := longWords a in
  let wordsB := longWords b in
  if (Nat.eqb (List.length wordsA) 0 || Nat.eqb (List.length wordsB) 0)%bool then 0
  else
    let overlap := List.length (filter (includes wordsB) wordsA) in
    Z.of_nat overlap # Pos.of_nat (Nat.max (List.length wordsA) (List.length wordsB)).

Definition Qgt_bool (x y : Q) : bool := negb (Qle_bool x y).

(** The loop of [fuzzyMatch] over the entries of the [Map], in insertion
    order, carrying [bestMatch] and [bestScore]. *)
Fixpoint bestOverlap (normalized : jsstring) (entries : list (jsstring * Z))
  (bestMatch : option Z) (bestScore : Q) : option Z :=
  match entries with
  | [] => bestMatch
  | (key, minutes) :: rest =>
      let score := overlapScore normalized key in
      if (Qgt_bool score bestScore && Qgt_bool score (1 # 2))%bool
      then bestOverlap normalized rest (Some minutes) score
      else bestOverlap normalized rest bestMatch bestScore
  end.

(** A [Map] from normalized names to minutes is the list of its entries
    in insertion order. [None] is [null]. *)
Definition fuzzyMatch (hospitalName : jsstring) (waitTimesMap : list (jsstring * Z))
  : option Z :=
  let normalized := normalizeName hospitalName in
  match lookup normalized waitTimesMap with
  | Some minutes => Some minutes
  | None => bestOverlap normalized waitTimesMap None 0
  end.

End Scraper.

(** A host for examples written in Basic Latin: lower-casing is exact
    there; [JSON.parse] is given by the table of the texts an example
    feeds it (every other text is rejected); no example below converts a
    string or an object to a number. *)
Definition tableHost (table : list (jsstring * json)) : Host := {|
  toLowerCase := asciiToLowerCase;
  JSON_parse := fun text =>
    match lookup text table with
    | Some v => Ok v
    | None => Throw (mkError (js "SyntaxError") (js "Unexpected token") None None None)
    end;
  StringToNumber := fun _ => NaN;
  ObjectToNumber := fun _ => Ok NaN
|}.

Definition latinHost : Host := tableHost [].

(** ** ttsService.js and llmService.js: languages *)

Definition SUPPORTED_LANGUAGES : list jsstring :=
  map js
    ["en"; "es"; "fr"; "de"; "it"; "pt"; "pl"; "hi"; "ar"; "zh";
     "ja"; "ko"; "nl"; "ru"; "sv"; "tr"; "uk"; "vi"; "id"; "fil";
     "ta"; "te"; "cs"; "da"; "fi"; "el"; "hu"; "no"; "ro"; "sk"]%string.

Definition DEFAULT_LANGUAGE_CODE : jsstring := js "en".

(** [/[\uLO-\uHI]/.test(text)]. *)
Definition hasCharIn (lo hi : N) (text : jsstring) : bool :=
  existsb (fun c => (lo <=? c) && (c <=? hi))%N text.

Definition detectLanguageFromSymptoms (symptoms : list jsstring) : jsstring :=
  let text := join (js " ") symptoms in
  if hasCharIn 0x0600 0x06FF text then js "ar"
  else if hasCharIn 0x0400 0x04FF text then js "ru"
  else if hasCharIn 0x4E00 0x9FFF text then js "zh"
  else if hasCharIn 0x3040 0x30FF text then js "ja"
  else if hasCharIn 0xAC00 0xD7AF text then js "ko"
  else if hasCharIn 0x0900 0x097F text then js "hi"
  else if hasCharIn 0x0C00 0x0C7F text then js "te"
  else DEFAULT_LANGUAGE_CODE.

(** The priority order as the specification words it: Arabic, Cyrillic,
    CJK Han, Japanese kana, Korean, Devanagari, Telugu. *)
Definition scriptPriority : list (N * N * jsstring) :=
  [ (0x0600, 0x06FF, js "ar"); (0x0400, 0x04FF, js "ru");
    (0x4E00, 0x9FFF, js "zh"); (0x3040, 0x30FF, js "ja");
    (0xAC00, 0xD7AF, js "ko"); (0x0900, 0x097F, js "hi");
    (0x0C00, 0x0C7F, js "te") ]%N.

(** The language of the first script of the list some character of which
    occurs in the text, [fallback] when there is none. *)
Definition firstScript (scripts : list (N * N * jsstring)) (fallback : jsstring)
  (text : jsstring) : jsstring :=
  match find (fun '(lo, hi, _) => hasCharIn lo hi text) scripts with
  | Some (_, _, code) => code
  | None => fallback
  end.

(** ** waittimeService.js *)

(** A reading of the clock: milliseconds since the epoch and the offset
    of local time from UTC in force at that instant, in minutes. *)
Record Date : Type := mkDate {
  epochMs : Z;
  utcOffsetMinutes : Z
}.

(** [date.getHours()]: the hour of the day in local time. *)
Definition getHours (d : Date) : Z :=
  ((epochMs d + utcOffsetMinutes d * 60000) / 3600000) mod 24.

(** The double of an integer below 2^63. *)
Definition f64_of_Z (z : Z) : float := PrimFloat.of_uint63 (Uint63.of_Z z).

(** [Math.round]: the integer nearest to the double, halves upwards. *)
Definition Math_round (x : float) : number :=
  match FloatOps.Prim2SF x with
  | S754_zero _ => num 0
  | S754_infinity s => Infinity s
  | S754_nan => NaN
  | S754_finite s m e =>
      let v := if s then Z.neg m else Z.pos m in
      num match e with
          | Z.neg p => (2 * v + 2 ^ Z.pos p) / 2 ^ (Z.pos p + 1)
          | _ => v * 2 ^ e
          end
  end.

Record WaitRange : Type := { range_min : float; range_max : float }.

(** [WAIT_RANGES.default]. *)
Definition WAIT_RANGES_default : WaitRange :=
  {| range_min := f64_of_Z 15; range_max := f64_of_Z 90 |}.

(** The loop [seed += hospitalName.charCodeAt(i)]. The sum, and below
    [seed * 9301 + 49297], are integers, which doubles hold exactly below
    2^53: that is any name of less than ten million code units. *)
Definition charCodeSum (hospitalName : jsstring) : Z :=
  fold_left (fun seed c => seed + Z.of_N c)%Z hospitalName 0%Z.

(** [range.min + rand * (range.max - range.min)] in double arithmetic,
    for [rand = r / 233280]. *)
Definition scaleToRange (range : WaitRange) (r : Z) : float :=
  let rand := PrimFloat.div (f64_of_Z r) (f64_of_Z 233280) in
  PrimFloat.add (range_min range)
    (PrimFloat.mul rand (PrimFloat.sub (range_max range) (range_min range))).

(** [now] is what [new Date()] reads when the function runs. *)
Definition generateSyntheticWait (now : Date) (hospitalName : jsstring) : number :=
  let hour := getHours now in
  let seed := (charCodeSum hospitalName + hour)%Z in
  let range := WAIT_RANGES_default in
  Math_round (scaleToRange range (Z.rem (seed * 9301 + 49297) 233280)).

(** A facility as the controller hands it over: an object whose [name]
    and [website], when present, are strings, and any other properties. *)
Record Hospital : Type := mkHospital {
  hospital_name : option jsstring;
  hospital_website : option jsstring;
  hospital_rest : list (jsstring * json)
}.

(** [{ ...hospital, waitTime, waitTimeEstimated }]. *)
Record Enriched : Type := mkEnriched {
  source : Hospital;
  waitTime : number;
  waitTimeEstimated : bool
}.

(** [generateSyntheticWait(hospital.name)]: reading [length] of
    [undefined] throws. *)
Definition generateSyntheticWait_of (now : Date) (hospitalName : option jsstring)
  : Outcome number :=
  match hospitalName with
  | Some s => Ok (generateSyntheticWait now s)
  | None => Throw (mkError (js "TypeError")
                     (js "Cannot read properties of undefined (reading 'length')")
                     None None None)
  end.

(** [hospital.website || null]. *)
Definition websiteOrNull (h : Hospital) : option jsstring :=
  match hospital_website h with
  | Some w => if nonEmpty w then Some w else None
  | None => None
  end.

(** The callback of [hospitals.map]. [scraped] is what the call of
    [scrapeWaitTime] produced: minutes, [null], or an exception. *)
Definition resolveHospital (scraped : Outcome (option number)) (now : Date)
  (hospital : Hospital) : Outcome Enriched :=
  let waitTime := match scraped with
                  | Ok w => w
                  | Throw _ => None   (* Scrape failed: will use synthetic *)
                  end in
  match waitTime with
  | Some w => Ok (mkEnriched hospital w false)
  | None =>
      match generateSyntheticWait_of now (hospital_name hospital) with
      | Ok w => Ok (mkEnriched hospital w true)
      | Throw e => Throw e
      end
  end.

(** [Promise.all]: all the values in order, or a rejection. *)
Fixpoint Promise_all {A} (l : list (Outcome A)) : Outcome (list A) :=
  match l with
  | [] => Ok []
  | Throw e :: _ => Throw e
  | Ok a :: l' =>
      match Promise_all l' with
      | Ok r => Ok (a :: r)
      | Throw e => Throw e
      end
  end.

Fixpoint mapi_from {A B} (i : nat) (f : nat -> A -> B) (l : list A) : list B :=
  match l with
  | [] => []
  | a :: l' => f i a :: mapi_from (S i) f l'
  end.

(** The facilities are resolved concurrently: whatever the schedule,
    the call of [scrapeWaitTime] for the facility at index [i] ends in
    [scrape i name website], and its fallback reads the clock at
    [clock i]. *)
Definition getWaitTimes
  (scrape : nat -> option jsstring -> option jsstring -> Outcome (option number))
  (clock : nat -> Date) (hospitals : list Hospital) : Outcome (list Enriched) :=
  Promise_all
    (mapi_from 0
       (fun i hospital =>
          resolveHospital (scrape i (hospital_name hospital) (websiteOrNull hospital))
            (clock i) hospital)
       hospitals).

(** A batch of five; the scrape of the third one times out, the first
    one has a real value on its page. *)
Definition fiveHospitals : list Hospital :=
  map (fun n => mkHospital (Some (js n)) None [])
    ["Inova Fairfax Hospital"; "General Hospital"; "Mercy Clinic";
     "County Medical Center"; "Riverside Hospital"]%string.

Definition thirdTimesOut (i : nat) (_ _ : option jsstring) : Outcome (option number) :=
  match i with
  | 0%nat => Ok (Some (num 48))
  | 2%nat => Throw (mkError (js "TimeoutError")
                      (js "The operation was aborted due to timeout") None None None)
  | _ => Ok None
  end.

(** ** llmService.js: configuration and the cached model handle *)

(** [process.env]: a variable is absent or a string. *)
Record Env : Type := mkEnv {
  GEMINI_API_KEY : option jsstring;
  GEMINI_MODEL : option jsstring;
  GEMINI_MODELS : option jsstring;
  GEMINI_IMAGE_MODEL : option jsstring;
  GEMINI_IMAGE_MODELS : option jsstring
}.

(** [a || b] on two strings that may be absent. *)
Definition orElse (a b : option jsstring) : option jsstring :=
  match a with
  | Some s => if nonEmpty s then a else b
  | None => b
  end.

(** [configured && configured.trim() ? configured.split(',')... : default]. *)
Definition configuredModels (configured : option jsstring) (default : list jsstring)
  : list jsstring :=
  match configured with
  | Some c =>
      if nonEmpty c && nonEmpty (trim c)
      then filter nonEmpty (map trim (split 44 c))
      else default
  | None => default
  end.

Definition getCandidateModels (env : Env) : list jsstring :=
  configuredModels (orElse (GEMINI_MODEL env) (GEMINI_MODELS env))
    (map js ["gemini-2.5-flash"; "gemini-2.0-flash"; "gemini-flash-latest"]%string).

Definition getImageCandidateModels (env : Env) : list jsstring :=
  configuredModels (orElse (GEMINI_IMAGE_MODEL env) (GEMINI_IMAGE_MODELS env))
    (map js ["gemini-2.5-flash"; "gemini-2.5-flash-image"; "gemini-2.0-flash"]%string).

(** What [genAI.getGenerativeModel({ model: id })] returns: a handle on
    the model of that identifier ([None] when the identifier is
    [undefined]). *)
Inductive Handle : Type :=
| GenerativeModel (id : option jsstring).

(** The data a prompt is made of; its text is a fixed template around
    them. *)
Inductive Prompt : Type :=
| DiagnosisPrompt (symptomsStr : jsstring) (imageAttached : bool)
    (requestedLanguageCode : option jsstring)
| TranslationPrompt (condition reasoning targetLanguageCode : jsstring)
| AudioTranscribePrompt
| AudioLanguageDetectPrompt.

Record InlineData : Type := mkInlineData {
  mimeType : jsstring;
  data : jsstring
}.

(** The argument of [generateContent]. *)
Record Request : Type := mkRequest {
  prompt : Prompt;
  inlineData : option InlineData;
  temperature : Q;
  responseMimeType : jsstring
}.

(** What [generateContent] resolves with, as far as
    [result?.response?.text ? result.response.text() : ''] can tell. *)
Inductive Response : Type :=
| NoText
| Text (text : jsstring)
| TextThrows (e : Error).

(** The remote service: the outcome of the call of [generateContent]
    that comes after [n] earlier calls, on a handle, for a request. *)
Definition Backend : Type := nat -> Handle -> Request -> Outcome Response.

(** The module variables [model] and [modelName], and the identifiers of
    the handles [generateContent] was called on so far, oldest first. *)
Record ModuleState : Type := mkState {
  model : option Handle;
  modelName : option jsstring;
  calls : list Handle
}.

Definition initialState : ModuleState := mkState None None [].

Definition resetModel (st : ModuleState) : ModuleState :=
  mkState None None (calls st).

Definition getModel (env : Env) (st : ModuleState) : Outcome Handle * ModuleState :=
  match orElse (GEMINI_API_KEY env) None with
  | None =>
      (Throw (publicError (js "GEMINI_API_KEY is required. Set it in .env") 500
                (js "LLM is not configured on the server")), st)
  | Some _ =>
      match model st with
      | Some h => (Ok h, st)
      | None =>
          let selectedModel := hd_error (getCandidateModels env) in
          let h := GenerativeModel selectedModel in
          (Ok h, mkState (Some h) selectedModel (calls st))
      end
  end.

Section LlmService.
Context {host : Host}.

Definition isModelNotFoundError (err : Error) : bool :=
  let message := toLowerCase (messageOf err) in
  match status err with
  | Some (Finite q) => Qeq_bool q 404
  | _ => false
  end
  || str_includes message (js "not found")
  || str_includes message (js "is not supported").

Definition isInvalidImageError (err : Error) : bool :=
  let message := toLowerCase (messageOf err) in
  match status err with
  | Some (Finite q) => Qeq_bool q 400
  | _ => false
  end
  && (str_includes message (js "provided image is not valid")
      || str_includes message (js "unable to process input image")).

Definition normalizeGeminiError (err : Error) : Error :=
  let statusCode :=
    match status err with
    | Some (Finite q) => if Number_isInteger (Finite q) then Qfloor q else 503%Z
    | _ => 503%Z
    end in
  let message := messageOf err in
  let lower := toLowerCase message in
  publicError (js "Gemini call failed: " ++ message)
    (if (400 <=? statusCode)%Z then statusCode else 503%Z)
    (if (statusCode =? 400)%Z then
       if str_includes lower (js "image")
       then js "Uploaded image could not be processed. Try a clear JPG or PNG image."
       else js "Invalid input for diagnosis request"
     else js "Diagnosis service temporarily unavailable").

Definition parseJsonFromText (text : jsstring) : Outcome json :=
  let raw := trim text in
  if negb (nonEmpty raw) then Throw (newError (js "Gemini returned empty text"))
  else
    match JSON_parse raw with
    | Ok v => Ok v
    | Throw _ =>
        (* Fall back to extracting the first JSON object from mixed text. *)
        match indexOf 123 raw, lastIndexOf 125 raw with
        | Some start, Some end_ =>
            if Nat.leb end_ start
            then Throw (newError (js "Gemini returned non-JSON output"))
            else
              let candidate := slice start (end_ + 1) raw in
              match JSON_parse candidate with
              | Ok v => Ok v
              | Throw err =>
                  Throw (newError (js "Gemini JSON parse failed: " ++ message err))
              end
        | _, _ => Throw (newError (js "Gemini returned non-JSON output"))
        end
    end.

(** The body of the [try] of [callGeminiJson] for one candidate. *)
Definition attempt (env : Env) (backend : Backend) (requestPayload : Request)
  (candidate : jsstring) (st : ModuleState) : Outcome Response * ModuleState :=
  let rebind :=
    match model st, modelName st with
    | Some _, Some n => negb (str_eqb n candidate)
    | _, _ => true
    end in
  let st1 :=
    if rebind
    then mkState (Some (GenerativeModel (Some candidate))) (Some candidate) (calls st)
    else st in
  match getModel env st1 with
  | (Throw e, st2) => (Throw e, st2)
  | (Ok h, st2) =>
      (backend (List.length (calls st2)) h requestPayload,
       mkState (model st2) (modelName st2) (calls st2 ++ [h]))
  end.

(** The [for] loop of [callGeminiJson], carrying [lastError]; it ends
    with [result] and [lastError]. *)
Fixpoint candidateLoop (env : Env) (backend : Backend) (requestPayload : Request)
  (candidateModels : list jsstring) (lastError : option Error) (st : ModuleState)
  : option Response * option Error * ModuleState :=
  match candidateModels with
  | [] => (None, lastError, st)
  | candidate :: rest =>
      match attempt env backend requestPayload candidate st with
      | (Ok result, st') => (Some result, None, st')
      | (Throw err, st') =>
          if isModelNotFoundError err
          then candidateLoop env backend requestPayload rest (Some err) (resetModel st')
          else (None, Some err, st')
      end
  end.

Definition responseText (result : option Response) : Outcome jsstring :=
  match result with
  | Some (Text s) => Ok s
  | Some (TextThrows e) => Throw e
  | Some NoText | None => Ok []
  end.

Definition callGeminiJson (env : Env) (backend : Backend) (requestPayload : Request)
  (candidateModels : list jsstring) (st : ModuleState) : Outcome json * ModuleState :=
  match candidateLoop env backend requestPayload candidateModels None st with
  | (_, Some lastError, st') => (Throw (normalizeGeminiError lastError), st')
  | (result, None, st') =>
      match responseText result with
      | Ok text => (parseJsonFromText text, st')
      | Throw e => (Throw e, st')
      end
  end.

End LlmService.

(** No ['{'] and no ['}'] in a piece of text. *)
Definition noBrace (s : jsstring) : bool :=
  forallb (fun c => negb ((c =? 123) || (c =? 125))%N) s.

(** [quoted "{'a':1}"] is the text [{"a":1}]: each apostrophe stands for
    a double quote. *)
Definition quoted (s : string) : jsstring :=
  map (fun c => if (c =? 39)%N then 34%N else c) (js s).

(** A diagnosis object and its serialization, for examples. *)
Definition fluText : jsstring :=
  quoted "{'condition':'flu','severity':2,'reasoning':'fever','languageCode':'en'}".

Definition fluObject : json :=
  JObj [(js "condition", JStr (js "flu")); (js "severity", JNum (num 2));
        (js "reasoning", JStr (js "fever")); (js "languageCode", JStr (js "en"))].

(** [JSON.parse] on the texts the examples feed it. *)
Definition fluHost : Host := tableHost [(fluText, fluObject)].

(** The handle [callGeminiJson] binds for a candidate. *)
Definition handleOf (candidate : jsstring) : Handle :=
  GenerativeModel (Some candidate).

(** The two module variables agree: [modelName] names the model the
    cached handle was made for. *)
Definition handleNamed (st : ModuleState) : Prop :=
  match model st with
  | Some (GenerativeModel id) => modelName st = id
  | None => modelName st = None
  end.

(** The state after [generateContent] was called on the handle of
    [candidate]. *)
Definition boundTo (candidate : jsstring) (earlier : list Handle) : ModuleState :=
  mkState (Some (handleOf candidate)) (Some candidate) (earlier ++ [handleOf candidate]).

(** Candidates that fail one after the other, from the call numbered
    [n0] on, each with an error classified as "model not found". *)
Definition notFoundRun {host : Host} (backend : Backend) (requestPayload : Request)
  (n0 : nat) (fails : list (jsstring * Error)) : Prop :=
  forall i candidate err,
    nth_error fails i = Some (candidate, err) ->
    backend (n0 + i)%nat (handleOf candidate) requestPayload = Throw err /\
    isModelNotFoundError err = true.

(** An environment with a key and the default candidates. *)
Definition keyedEnv : Env := mkEnv (Some (js "test-key")) None None None None.

Definition translationRequestExample : Request :=
  mkRequest (TranslationPrompt (js "flu") (js "fever") (js "es")) None (1 # 10)
    (js "application/json").

Definition notFound404 : Error :=
  mkError (js "Error") (js "models/gemini-x is not found for API version v1beta")
    (Some (num 404)) None None.

(** The first two calls fail with "not found", the third one answers. *)
Definition thirdAnswers : Backend :=
  fun n _ _ =>
    match n with
    | 0%nat | 1%nat => Throw notFound404
    | _ => Ok (Text fluText)
    end.

(** ** llmService.js: the response contract *)

Record DiagnosisResult : Type := mkDiagnosisResult {
  condition : jsstring;
  severity : number;
  reasoning : jsstring;
  languageCode : jsstring
}.

Record TranscriptionResult : Type := mkTranscriptionResult {
  symptomsText : jsstring;
  transcriptLanguageCode : jsstring
}.

(** [typeof v === 'string' ? v.trim() : '']. *)
Definition trimmedString (v : value) : jsstring :=
  match asString v with
  | Some s => trim s
  | None => []
  end.

(** [/^<kind>\/[a-z0-9.+-]+$/] on a string already in lower case. *)
Definition isMimeChar (c : N) : bool :=
  ((97 <=? c) && (c <=? 122) || (48 <=? c) && (c <=? 57)
   || (c =? 46) || (c =? 43) || (c =? 45))%N.

Definition isMimeOfKind (kind : jsstring) (mime : jsstring) : bool :=
  startsWith (kind ++ [47%N]) mime &&
  let subtype := skipn (List.length kind + 1) mime in
  nonEmpty subtype && forallb isMimeChar subtype.

(** [.] in a regular expression: anything but a line terminator. *)
Definition isLineTerminator (c : N) : bool :=
  ((c =? 10) || (c =? 13) || (c =? 0x2028) || (c =? 0x2029))%N.

(** [data.match(/^data:([^;]+);base64,(.+)$/)]: the two groups. *)
Definition matchDataUrl (data : jsstring) : option (jsstring * jsstring) :=
  if startsWith (js "data:") data then
    let rest := skipn 5 data in
    match indexOf 59 rest with
    | Some i =>
        let mime := firstn i rest in
        let tail := skipn i rest in
        let payload := skipn 8 tail in
        if nonEmpty mime && startsWith (js ";base64,") tail && nonEmpty payload
           && forallb (fun c => negb (isLineTerminator c)) payload
        then Some (mime, payload)
        else None
    | None => None
    end
  else None.

Section Pipelines.
Context {host : Host}.

(** [Number(v)]. *)
Definition ToNumber (v : value) : Outcome number :=
  match v with
  | None => Ok NaN
  | Some JNull => Ok (num 0)
  | Some (JBool b) => Ok (num (if b then 1 else 0))
  | Some (JNum n) => Ok n
  | Some (JStr s) => Ok (StringToNumber s)
  | Some o => ObjectToNumber o
  end.

(** [typeof v === 'string' ? v.trim().toLowerCase() : '']. *)
Definition loweredString (v : value) : jsstring :=
  match asString v with
  | Some s => toLowerCase (trim s)
  | None => []
  end.

Definition validateAndNormalize (obj : json) (fallbackLanguageCode : jsstring)
  : Outcome DiagnosisResult :=
  match obj with
  | JObj _ =>
      let condition := trimmedString (prop (Some obj) (js "condition")) in
      let reasoning := trimmedString (prop (Some obj) (js "reasoning")) in
      match ToNumber (prop (Some obj) (js "severity")) with
      | Throw e => Throw e
      | Ok severity =>
          let rawLanguageCode := loweredString (prop (Some obj) (js "languageCode")) in
          let languageCode :=
            if includes SUPPORTED_LANGUAGES rawLanguageCode
            then rawLanguageCode else fallbackLanguageCode in
          if negb (nonEmpty condition) then
            Throw (newError (js "Invalid LLM response: condition is required"))
          else if negb (nonEmpty reasoning) then
            Throw (newError (js "Invalid LLM response: reasoning is required"))
          else if negb (Number_isInteger severity)
                  || num_lt severity (num 1) || num_gt severity (num 3) then
            Throw (newError (js "Invalid LLM response: severity must be 1, 2, or 3"))
          else Ok (mkDiagnosisResult condition severity reasoning languageCode)
      end
  | _ => Throw (newError (js "Invalid LLM response shape"))
  end.

(** An image or audio attachment as the caller sent it: present when it
    is an object whose [data] and [mimeType] are strings. *)
Definition attachmentOf (v : json) : option InlineData :=
  match v with
  | JObj _ =>
      match asString (prop (Some v) (js "mimeType")), asString (prop (Some v) (js "data")) with
      | Some m, Some d => Some (mkInlineData m d)
      | _, _ => None
      end
  | _ => None
  end.

Definition validateAudioInput (audio : value) : Outcome InlineData :=
  match audio with
  | Some a =>
      match (if truthy audio then attachmentOf a else None) with
      | Some att =>
          if negb (nonEmpty (trim (data att))) then
            Throw (publicError (js "Invalid audio input") 400 (js "Invalid audio input"))
          else
            let rawMimeType := toLowerCase (trim (mimeType att)) in
            let mime := trim (hd [] (split 59 rawMimeType)) in
            if isMimeOfKind (js "audio") mime then Ok att
            else Throw (publicError (js "Invalid audio MIME type") 400
                          (js "Invalid audio MIME type"))
      | None =>
          Throw (publicError (js "Invalid audio input") 400 (js "Invalid audio input"))
      end
  | None => Throw (publicError (js "Invalid audio input") 400 (js "Invalid audio input"))
  end.

Definition normalizeImage (image : InlineData) : InlineData :=
  let mime := toLowerCase (trim (mimeType image)) in
  let d := trim (data image) in
  match matchDataUrl d with
  | Some (dataUrlMimeType, base64Data) =>
      mkInlineData (toLowerCase (trim dataUrlMimeType)) base64Data
  | None => mkInlineData mime d
  end.

Definition translateDiagnosisFields (env : Env) (backend : Backend)
  (diagnosis : DiagnosisResult) (targetLanguageCode : jsstring) (st : ModuleState)
  : Outcome DiagnosisResult * ModuleState :=
  if negb (nonEmpty targetLanguageCode) || str_eqb targetLanguageCode (js "en")
  then (Ok diagnosis, st)
  else
    let request :=
      mkRequest (TranslationPrompt (condition diagnosis) (reasoning diagnosis)
                   targetLanguageCode)
        None (1 # 10) (js "application/json") in
    match callGeminiJson env backend request (getCandidateModels env) st with
    | (Throw e, st') => (Throw e, st')
    | (Ok parsed, st') =>
        let translatedCondition := trimmedString (prop (Some parsed) (js "condition")) in
        let translatedReasoning := trimmedString (prop (Some parsed) (js "reasoning")) in
        if negb (nonEmpty translatedCondition) || negb (nonEmpty translatedReasoning)
        then (Ok diagnosis, st')
        else (Ok (mkDiagnosisResult translatedCondition (severity diagnosis)
                    translatedReasoning targetLanguageCode), st')
    end.

End Pipelines.

(** ** llmService.js: the two pipelines *)

Section Diagnosis.
Context {host : Host}.

(** [Array.isArray(symptoms) && symptoms.every((s) => typeof s ===
    'string' && s.trim())]: the strings, when the check passes. *)
Fixpoint symptomStrings (items : list json) : option (list jsstring) :=
  match items with
  | [] => Some []
  | JStr s :: rest =>
      if nonEmpty (trim s) then
        match symptomStrings rest with
        | Some l => Some (s :: l)
        | None => None
        end
      else None
  | _ :: _ => None
  end.

Definition symptomsOf (v : value) : option (list jsstring) :=
  match v with
  | Some (JArr items) => symptomStrings items
  | _ => None
  end.

(** The check of [image] in [generateDiagnosis]. *)
Definition validImage (image : json) : option InlineData :=
  match attachmentOf image with
  | Some att =>
      if nonEmpty (trim (data att))
         && isMimeOfKind (js "image") (asciiToLowerCase (trim (mimeType att)))
      then Some att else None
  | None => None
  end.

Definition invalidResponse (err : Error) (publicMsg : jsstring) : Error :=
  publicError (message err) 503 publicMsg.

(** [candidateLanguageCode] and [requestedLanguageCode] of
    [generateDiagnosis]: the language the caller asked for, when it is a
    supported one. *)
Definition requestedLanguageCodeOf (input : value) : option jsstring :=
  let candidateLanguageCode :=
    match asString (prop input (js "languageCode")) with
    | Some s => if nonEmpty (trim s) then Some (toLowerCase (trim s)) else None
    | None => None
    end in
  match candidateLanguageCode with
  | Some c => if nonEmpty c && includes SUPPORTED_LANGUAGES c then Some c else None
  | None => None
  end.

(** The second [try] block of [generateDiagnosis]: validation, then
    translation, any exception wrapped into one 503 error. *)
Definition validateAndTranslate (env : Env) (backend : Backend) (parsed : json)
  (requestedLanguageCode : option jsstring) (fallbackLanguageCode : jsstring)
  (st1 : ModuleState) : Outcome DiagnosisResult * ModuleState :=
  match validateAndNormalize parsed fallbackLanguageCode with
  | Throw err =>
      (Throw (invalidResponse err
                (js "Diagnosis service returned an invalid response")), st1)
  | Ok normalized =>
      let targetLanguageCode :=
        match requestedLanguageCode with
        | Some r => r
        | None =>
            if nonEmpty (languageCode normalized)
            then languageCode normalized
            else fallbackLanguageCode
        end in
      match translateDiagnosisFields env backend
              (mkDiagnosisResult (condition normalized) (severity normalized)
                 (reasoning normalized) targetLanguageCode)
              targetLanguageCode st1 with
      | (Ok result, st2) => (Ok result, st2)
      | (Throw err, st2) =>
          (Throw (invalidResponse err
                    (js "Diagnosis service returned an invalid response")),
           st2)
      end
  end.

Definition generateDiagnosis (env : Env) (backend : Backend) (input : value)
  (st : ModuleState) : Outcome DiagnosisResult * ModuleState :=
  let symptoms := prop input (js "symptoms") in
  let image := if truthy (prop input (js "image")) then prop input (js "image") else None in
  let requestedLanguageCode := requestedLanguageCodeOf input in
  match symptomsOf symptoms with
  | None =>
      (Throw (publicError (js "Invalid symptoms input") 400 (js "Invalid symptoms input")), st)
  | Some symptoms =>
      match (match image with
             | Some img =>
                 match validImage img with
                 | Some att => Some (Some att)
                 | None => None
                 end
             | None => Some None
             end) with
      | None =>
          (Throw (publicError (js "Invalid image input") 400 (js "Invalid image input")), st)
      | Some attachment =>
          match symptoms, attachment with
          | [], None =>
              (Throw (publicError (js "Either symptoms text or an image is required") 400
                        (js "Either symptoms text or an image is required")), st)
          | _, _ =>
              let symptomsStr :=
                match symptoms with
                | _ :: _ => join (js ", ") (map trim symptoms)
                | [] => js "No textual symptoms provided."
                end in
              let autoDetectedLanguageCode := detectLanguageFromSymptoms symptoms in
              let fallbackLanguageCode :=
                match requestedLanguageCode with
                | Some r => r
                | None => autoDetectedLanguageCode
                end in
              let requestPayload :=
                mkRequest
                  (DiagnosisPrompt symptomsStr
                     (match attachment with Some _ => true | None => false end)
                     requestedLanguageCode)
                  (option_map normalizeImage attachment)
                  (2 # 10) (js "application/json") in
              let candidates :=
                match attachment with
                | Some _ => getImageCandidateModels env
                | None => getCandidateModels env
                end in
              match callGeminiJson env backend requestPayload candidates st with
              | (Throw err, st1) =>
                  let lower := toLowerCase (message err) in
                  match attachment with
                  | Some _ =>
                      if str_includes lower (js "image") then
                        (Throw (publicError (js "Uploaded image could not be processed") 400
                                  (js "Uploaded image could not be processed. Try a clear JPG or PNG image.")),
                         st1)
                      else
                        (Throw (invalidResponse err
                                  (js "Diagnosis service returned malformed output")), st1)
                  | None =>
                      (Throw (invalidResponse err
                                (js "Diagnosis service returned malformed output")), st1)
                  end
              | (Ok parsed, st1) =>
                  validateAndTranslate env backend parsed requestedLanguageCode
                    fallbackLanguageCode st1
              end
          end
      end
  end.

Definition transcribeSymptomsFromAudio (env : Env) (backend : Backend) (input : value)
  (st : ModuleState) : Outcome TranscriptionResult * ModuleState :=
  match validateAudioInput (prop input (js "audio")) with
  | Throw e => (Throw e, st)
  | Ok audio =>
      let normalizedMimeType :=
        trim (hd [] (split 59 (toLowerCase (trim (mimeType audio))))) in
      let audioData := trim (data audio) in
      let attachment := Some (mkInlineData normalizedMimeType audioData) in
      match callGeminiJson env backend
              (mkRequest AudioTranscribePrompt attachment (1 # 10) (js "application/json"))
              (getCandidateModels env) st with
      | (Throw e, st1) => (Throw e, st1)
      | (Ok parsed, st1) =>
          let symptomsText := trimmedString (prop (Some parsed) (js "symptomsText")) in
          let rawLang := loweredString (prop (Some parsed) (js "languageCode")) in
          let languageCode0 :=
            if includes SUPPORTED_LANGUAGES rawLang then rawLang else DEFAULT_LANGUAGE_CODE in
          let '(detected, st2) :=
            callGeminiJson env backend
              (mkRequest AudioLanguageDetectPrompt attachment 0 (js "application/json"))
              (getCandidateModels env) st1 in
          let languageCode1 :=
            match detected with
            | Ok langParsed =>
                let languageFromAudio :=
                  loweredString (prop (Some langParsed) (js "languageCode")) in
                if includes SUPPORTED_LANGUAGES languageFromAudio
                then languageFromAudio else languageCode0
            | Throw _ =>
                (* Keep transcription-provided language if dedicated
                   language detection fails. *)
                languageCode0
            end in
          let languageCode2 :=
            if str_eqb languageCode1 (js "en") && nonEmpty symptomsText then
              let scriptGuess := detectLanguageFromSymptoms [symptomsText] in
              if nonEmpty scriptGuess && negb (str_eqb scriptGuess (js "en"))
              then scriptGuess else languageCode1
            else languageCode1 in
          if negb (nonEmpty symptomsText) then
            (Throw (publicError (js "Transcription failed") 503
                      (js "Transcription service returned invalid output")), st2)
          else (Ok (mkTranscriptionResult symptomsText languageCode2), st2)
      end
  end.

End Diagnosis.

(** ** Statements about the pipelines *)

(** A severity is one of the integers 1, 2, 3. *)
Definition isSeverity (x : number) : Prop :=
  match x with
  | Finite q => (q == 1 \/ q == 2 \/ q == 3)%Q
  | _ => False
  end.

(** The invariant of a [DiagnosisResult]. *)
Definition validDiagnosis (r : DiagnosisResult) : Prop :=
  isSeverity (severity r) /\
  condition r <> [] /\
  reasoning r <> [] /\
  includes SUPPORTED_LANGUAGES (languageCode r) = true.

(** The two requests of [transcribeSymptomsFromAudio] for an audio clip. *)
Definition audioPart {host : Host} (audio : InlineData) : option InlineData :=
  Some (mkInlineData
          (trim (hd [] (split 59 (toLowerCase (trim (mimeType audio))))))
          (trim (data audio))).

Definition transcribeRequest {host : Host} (audio : InlineData) : Request :=
  mkRequest AudioTranscribePrompt (audioPart audio) (1 # 10) (js "application/json").

Definition languageDetectRequest {host : Host} (audio : InlineData) : Request :=
  mkRequest AudioLanguageDetectPrompt (audioPart audio) 0 (js "application/json").


(** ** Data for the examples *)

(** "Fever" in Telugu script. *)
Definition teluguFever : jsstring := [0x0C1C; 0x0C4D; 0x0C35; 0x0C30; 0x0C02]%N.

(** A transcription payload without [languageCode]. *)
Definition transcriptText : jsstring :=
  quoted "{'symptomsText':'" ++ teluguFever ++ quoted "'}".

Definition transcriptObject : json :=
  JObj [(js "symptomsText", JStr teluguFever)].

(** A transcription payload without [symptomsText]. *)
Definition noTranscriptText : jsstring := quoted "{'languageCode':'te'}".

Definition noTranscriptObject : json :=
  JObj [(js "languageCode", JStr (js "te"))].

Definition emptyObjectText : jsstring := js "{}".

(** [JSON.parse] on the texts of the examples. *)
Definition clinicHost : Host :=
  tableHost [(fluText, fluObject); (transcriptText, transcriptObject);
             (noTranscriptText, noTranscriptObject); (emptyObjectText, JObj [])].

Definition serviceUnavailable : Error :=
  mkError (js "Error") (js "fetch failed: 503 Service Unavailable")
    (Some (num 503)) None None.

(** The service answers the first call with [text] and fails afterwards. *)
Definition answersOnce (text : jsstring) : Backend :=
  fun n _ _ =>
    match n with
    | 0%nat => Ok (Text text)
    | _ => Throw serviceUnavailable
    end.

(** The service answers the first call with [first], the later ones with
    [second]. *)
Definition answersTwice (first second : jsstring) : Backend :=
  fun n _ _ =>
    match n with
    | 0%nat => Ok (Text first)
    | _ => Ok (Text second)
    end.

Definition audioInput : value :=
  Some (JObj [(js "audio",
               JObj [(js "data", JStr (js "UklGRg=="));
                     (js "mimeType", JStr (js "audio/webm;codecs=opus"))])]).

Definition audioClip : InlineData :=
  mkInlineData (js "audio/webm;codecs=opus") (js "UklGRg==").

Definition feverInput : value :=
  Some (JObj [(js "symptoms", JArr [JStr (js "fever")])]).

Definition fiebreInput : value :=
  Some (JObj [(js "symptoms", JArr [JStr (js "fiebre")]);
              (js "languageCode", JStr (js "es"))]).


(** The shape of a normalized name: letters [a-z], digits and single
    spaces, with no space at either end. *)
Definition isLowerAlnum (c : N) : bool :=
  ((97 <=? c) && (c <=? 122) || (48 <=? c) && (c <=? 57))%N.

Fixpoint singleSpaced (s : jsstring) : bool :=
  match s with
  | c :: (d :: _) as rest => negb ((c =? 32) && (d =? 32))%N && singleSpaced rest
  | _ => true
  end.

Definition isNormalizedName (s : jsstring) : Prop :=
  forallb (fun c => isLowerAlnum c || (c =? 32)%N) s = true /\
  singleSpaced s = true /\
  hd 0%N s <> 32%N /\ last s 0%N <> 32%N.

(** The error [getModel] throws without an API key. *)
Definition missingKeyError : Error :=
  publicError (js "GEMINI_API_KEY is required. Set it in .env") 500
    (js "LLM is not configured on the server").

(** An environment without a key. *)
Definition keylessEnv : Env := mkEnv None None None None None.

(** ** scraperService.js: the page cache and the scrape of one facility *)

(** What [fetch] resolves with, as far as the scraper reads it. *)
Record HttpResponse : Type := mkHttpResponse {
  ok : bool;
  httpStatus : Z;
  body : jsstring
}.

(** The network: the outcome of the call of [fetch] that comes after [n]
    earlier ones, for a URL (a rejection stands for a network error or
    the time-out of [AbortSignal.timeout]). *)
Definition Fetch : Type := nat -> jsstring -> Outcome HttpResponse.

Record CacheEntry (D : Type) : Type := mkCacheEntry {
  entryData : D;
  timestamp : Z
}.

(** The module variable [cache], a [Map] in insertion order, and the URLs
    [fetch] was called with so far, oldest first. *)
Record ScraperState (D : Type) : Type := mkScraperState {
  cache : list (jsstring * CacheEntry D);
  fetched : list jsstring
}.

Definition CACHE_TTL_MS : Z := 5 * 60 * 1000.

(** [map.set(k, v)]: in place when the key is there, at the end
    otherwise. *)
Fixpoint Map_set {A} (k : jsstring) (v : A) (m : list (jsstring * A))
  : list (jsstring * A) :=
  match m with
  | [] => [(k, v)]
  | (k', v') :: m' =>
      if str_eqb k k' then (k, v) :: m' else (k', v') :: Map_set k v m'
  end.

(** The decimal digits of a status code, for [`HTTP ${response.status}`]. *)
Definition decimal (z : Z) : jsstring :=
  js (DecimalString.NilEmpty.string_of_int (Z.to_int z)).

(** [nowCheck] and [nowStore] are the two readings of [Date.now()]: at
    the look-up and when the fresh data is stored. *)
Definition fetchWithCache {D} (fetch : Fetch) (parserFn : jsstring -> Outcome D)
  (url : jsstring) (nowCheck nowStore : Z) (st : ScraperState D)
  : Outcome D * ScraperState D :=
  let fresh :=
    match lookup url (cache st) with
    | Some cached =>
        if (nowCheck - timestamp cached <? CACHE_TTL_MS)%Z
        then Some (entryData cached) else None
    | None => None
    end in
  match fresh with
  | Some d => (Ok d, st)
  | None =>
      let st1 := mkScraperState (cache st) (fetched st ++ [url]) in
      match fetch (List.length (fetched st)) url with
      | Throw e => (Throw e, st1)
      | Ok response =>
          if negb (ok response)
          then (Throw (newError (js "HTTP " ++ decimal (httpStatus response))), st1)
          else
            match parserFn (body response) with
            | Throw e => (Throw e, st1)
            | Ok d =>
                (Ok d,
                 mkScraperState (Map_set url (mkCacheEntry d nowStore) (cache st))
                   (fetched st1))
            end
      end
  end.


Definition INOVA_URL : jsstring := js "https://www.inova.org/emergency-room-wait-times".


Section GenericSite.
Variable D : Type.

(** [URL_origin] is [new URL(url).origin], [None] when the constructor
    throws; [extractWaitFromHtml] is the search of the page text for a
    wait time, a function of that text alone. *)
Variable fetch : Fetch.
Variable URL_origin : jsstring -> option jsstring.
Variable extractWaitFromHtml : jsstring -> option Z.



End GenericSite.

Section ScrapeOne.
Context {host : Host}.

(** [parseInova] stands for [parseInovaPage], which catches what it
    throws. *)
Variable fetch : Fetch.
Variable parseInova : jsstring -> list (jsstring * Z).
Variable URL_origin : jsstring -> option jsstring.
Variable extractWaitFromHtml : jsstring -> option Z.


End ScrapeOne.

(** The Inova page answers once; afterwards the network is down. *)
Definition pageOnce : Fetch :=
  fun n _ =>
    match n with
    | 0%nat => Ok (mkHttpResponse true 200 (js "<html>drupal-settings-json</html>"))
    | _ => Throw (mkError (js "TypeError") (js "fetch failed") None None None)
    end.

Definition inovaTimes : list (jsstring * Z) :=
  [(js "inova fairfax hospital", 48%Z); (js "inova loudoun hospital", 12%Z)].

Definition emptyScraperState : ScraperState (list (jsstring * Z)) :=
  mkScraperState [] [].

Definition networkDown : Fetch :=
  fun _ _ => Throw (mkError (js "TypeError") (js "fetch failed") None None None).




(** A Telugu transcript that the transcription call labels as Spanish,
    and the answer of a detection call: Hindi, in capitals and with
    spaces around. *)
Definition teluguEsText : jsstring :=
  quoted "{'symptomsText':'" ++ teluguFever ++ quoted "','languageCode':'es'}".

Definition teluguEsObject : json :=
  JObj [(js "symptomsText", JStr teluguFever); (js "languageCode", JStr (js "es"))].

Definition hindiCodeText : jsstring := quoted "{'languageCode':' HI '}".

Definition hindiCodeObject : json := JObj [(js "languageCode", JStr (js " HI "))].

Definition teluguHost : Host :=
  tableHost [(teluguEsText, teluguEsObject); (hindiCodeText, hindiCodeObject);
             (transcriptText, transcriptObject)].

(* ================================================================== *)
(** * Part II. Theorems *)
(* ================================================================== *)

Example normalizeName_st_marys :
  @normalizeName latinHost (js "St. Mary's  Hospital ") = js "st marys hospital".
Proof. reflexivity. Qed.

(** ** Name matching *)

Lemma Qgt_bool_iff (x y : Q) : Qgt_bool x y = true <-> (y < x)%Q.
Proof.
  unfold Qgt_bool. rewrite negb_true_iff.
  split; intro H.
  - apply Qnot_le_lt. intro L. apply Qle_bool_iff in L. congruence.
  - destruct (Qle_bool x y) eqn:E; [|reflexivity].
    apply Qle_bool_iff in E. exfalso. apply (Qlt_not_le _ _ H E).
Qed.

Lemma Qgt_bool_false_iff (x y : Q) : Qgt_bool x y = false <-> (x <= y)%Q.
Proof.
  unfold Qgt_bool. rewrite negb_false_iff. apply Qle_bool_iff.
Qed.

Lemma str_eqb_refl (s : jsstring) : str_eqb s s = true.
Proof. induction s as [|c s IH]; cbn; [reflexivity|]. now rewrite N.eqb_refl. Qed.

Lemma str_eqb_eq (a b : jsstring) : str_eqb a b = true <-> a = b.
Proof.
  split.
  - revert b. induction a as [|x a IH]; intros [|y b] H; try discriminate; [reflexivity|].
    cbn in H. apply andb_prop in H. destruct H as [H1 H2].
    apply N.eqb_eq in H1. f_equal; auto.
  - intros <-. apply str_eqb_refl.
Qed.

Lemma includes_In (l : list jsstring) (w : jsstring) : includes l w = true <-> In w l.
Proof.
  unfold includes. rewrite existsb_exists. split.
  - intros (x & Hin & Heq). apply str_eqb_eq in Heq. now subst.
  - intro H. exists w. split; [exact H | apply str_eqb_refl].
Qed.

Lemma Set_of_spec (words seen : list jsstring) :
  NoDup (Set_of seen words) /\
  forall w, In w (Set_of seen words) <-> In w words /\ ~ In w seen.
Proof.
  revert seen. induction words as [|w ws IH]; intro seen; cbn [Set_of].
  - split; [constructor|]. cbn. tauto.
  - destruct (includes seen w) eqn:E.
    + apply includes_In in E. destruct (IH seen) as [Hnd Hin]. split; [exact Hnd|].
      intro v. rewrite Hin. cbn. split; [tauto|].
      intros [[<-|H] Hn]; tauto.
    + assert (Hn : ~ In w seen) by (rewrite <- includes_In; congruence).
      destruct (IH (w :: seen)) as [Hnd Hin]. split.
      * constructor; [|exact Hnd]. rewrite Hin. cbn. tauto.
      * intro v. cbn [In]. rewrite Hin. cbn [In]. split.
        -- intros [<-|[H1 H2]]; tauto.
        -- intros [[<-|H1] H2]; [tauto|].
           destruct (list_eq_dec N.eq_dec w v) as [->|Hd]; [tauto|]. right. tauto.
Qed.

Section ScraperFacts.
Context {host : Host}.

(** The loop of [fuzzyMatch]: either nothing beats the running best, or
    the answer is the first entry of maximal score, and that score beats
    both the running best and the threshold. *)
Lemma bestOverlap_spec (n : jsstring) (entries : list (jsstring * Z)) :
  forall bestMatch bestScore,
    (bestOverlap n entries bestMatch bestScore = bestMatch /\
     forall key m, In (key, m) entries ->
       (overlapScore n key <= bestScore \/ overlapScore n key <= 1 # 2)%Q)
    \/
    (exists l1 key m l2,
       entries = l1 ++ (key, m) :: l2 /\
       bestOverlap n entries bestMatch bestScore = Some m /\
       (bestScore < overlapScore n key)%Q /\
       (1 # 2 < overlapScore n key)%Q /\
       (forall k' m', In (k', m') l1 -> (overlapScore n k' < overlapScore n key)%Q) /\
       (forall k' m', In (k', m') l2 -> (overlapScore n k' <= overlapScore n key)%Q)).
Proof.
  induction entries as [|[key minutes] rest IH]; intros bestMatch bestScore.
  - left. split; [reflexivity|]. intros ? ? [].
  - cbn [bestOverlap].
    destruct (Qgt_bool (overlapScore n key) bestScore) eqn:E1;
      [destruct (Qgt_bool (overlapScore n key) (1 # 2)) eqn:E2|]; cbn [andb].
    + apply Qgt_bool_iff in E1. apply Qgt_bool_iff in E2.
      destruct (IH (Some minutes) (overlapScore n key))
        as [[Hr Hall] | (l1 & k & m & l2 & Hsplit & Hr & Hbs & Hhalf & Hl1 & Hl2)].
      * right. exists [], key, minutes, rest. repeat split; auto.
        -- intros ? ? [].
        -- intros k' m' Hin. destruct (Hall _ _ Hin) as [H|H]; [exact H|].
           apply Qlt_le_weak. eapply Qle_lt_trans; eauto.
      * right. exists ((key, minutes) :: l1), k, m, l2. repeat split; auto.
        -- rewrite Hsplit. reflexivity.
        -- eapply Qlt_trans; eauto.
        -- intros k' m' [Heq|Hin]; [inversion Heq; subst; exact Hbs | eauto].
    + apply Qgt_bool_iff in E1. apply Qgt_bool_false_iff in E2.
      destruct (IH bestMatch bestScore)
        as [[Hr Hall] | (l1 & k & m & l2 & Hsplit & Hr & Hbs & Hhalf & Hl1 & Hl2)].
      * left. split; [exact Hr|].
        intros k' m' [Heq|Hin]; [inversion Heq; subst; right; exact E2 | eauto].
      * right. exists ((key, minutes) :: l1), k, m, l2. repeat split; auto.
        -- rewrite Hsplit. reflexivity.
        -- intros k' m' [Heq|Hin]; [inversion Heq; subst | eauto].
           eapply Qle_lt_trans; eauto.
    + apply Qgt_bool_false_iff in E1.
      destruct (IH bestMatch bestScore)
        as [[Hr Hall] | (l1 & k & m & l2 & Hsplit & Hr & Hbs & Hhalf & Hl1 & Hl2)].
      * left. split; [exact Hr|].
        intros k' m' [Heq|Hin]; [inversion Heq; subst; left; exact E1 | eauto].
      * right. exists ((key, minutes) :: l1), k, m, l2. repeat split; auto.
        -- rewrite Hsplit. reflexivity.
        -- intros k' m' [Heq|Hin]; [inversion Heq; subst | eauto].
           eapply Qle_lt_trans; eauto.
Qed.

Lemma overlapScore_nonneg (a b : jsstring) : (0 <= overlapScore a b)%Q.
Proof.
  unfold overlapScore.
  destruct (_ || _); [apply Qle_refl|].
  unfold Qle; cbn. lia.
Qed.

End ScraperFacts.

Example overlapScore_partial :
  (@overlapScore (js "inova fairfax hospital emergency") (js "inova fairfax hospital")
   == 3 # 4)%Q.
Proof. reflexivity. Qed.

Example fuzzyMatch_partial :
  @fuzzyMatch latinHost (js "Inova Fairfax Hospital - Emergency")
    [(js "inova loudoun hospital", 12%Z); (js "inova fairfax hospital", 48%Z)]
  = Some 48%Z.
Proof. reflexivity. Qed.

(** Two names score above 0 exactly when they share a word of more than
    two characters. *)
Lemma overlapScore_pos_iff (a b : jsstring) :
  (0 < overlapScore a b)%Q <->
  exists w, (2 < List.length w)%nat /\ In w (split 32 a) /\ In w (split 32 b).
Proof.
  assert (L : forall s w, In w (longWords s)
                          <-> In w (split 32 s) /\ (2 < List.length w)%nat).
  { intros s w. unfold longWords.
    rewrite (proj2 (Set_of_spec _ [])), filter_In, Nat.ltb_lt. cbn. tauto. }
  unfold overlapScore. split.
  - destruct (_ || _); [intro H; discriminate H|].
    unfold Qlt. cbn [Qnum Qden]. rewrite Z.mul_0_l, Z.mul_1_r. intro H.
    destruct (filter (includes (longWords b)) (longWords a)) as [|w rest] eqn:E;
      [cbn in H; lia|].
    assert (Hin : In w (filter (includes (longWords b)) (longWords a)))
      by (rewrite E; now left).
    apply filter_In in Hin. destruct Hin as [Ha Hb].
    apply includes_In in Hb. apply L in Ha. apply L in Hb.
    exists w. tauto.
  - intros (w & Hlen & Ha & Hb).
    assert (HA : In w (longWords a)) by (apply L; tauto).
    assert (HB : In w (longWords b)) by (apply L; tauto).
    assert (Hf : In w (filter (includes (longWords b)) (longWords a)))
      by (apply filter_In; split; [exact HA | now apply includes_In]).
    destruct (longWords a) as [|a0 A] eqn:EA; [destruct HA|].
    destruct (longWords b) as [|b0 B] eqn:EB; [destruct HB|].
    cbn [List.length Nat.eqb orb].
    destruct (filter _ _) as [|f0 F]; [destruct Hf|].
    unfold Qlt. cbn [Qnum Qden List.length]. lia.
Qed.

(** C9. [fuzzyMatch] answers with the entry stored under the normalized
    name when there is one; otherwise with the first entry whose word
    overlap with the normalized name is the highest, provided that score
    exceeds 0.5; otherwise with [null]. The score is above 0 exactly when
    the two names share a word of more than two characters.
    "St. Mary's Hospital" is found under the key "st marys hospital"
    (which it also scores 1 against); against "childrens medical center"
    it scores 0 and finds nothing. A name that is no key is matched by
    overlap: of two keys scoring 3/4 and 4/5 the second one wins, and a
    key scoring exactly 1/2 is not taken. *)
Theorem fuzzyMatch_exact_then_best_overlap :
  forall (host : Host) (hospitalName : jsstring) (waitTimesMap : list (jsstring * Z)),
    let normalized := normalizeName hospitalName in
    let score := overlapScore normalized in
    match lookup normalized waitTimesMap with
    | Some minutes => fuzzyMatch hospitalName waitTimesMap = Some minutes
    | None =>
        (fuzzyMatch hospitalName waitTimesMap = None /\
         forall key m, In (key, m) waitTimesMap -> (score key <= 1 # 2)%Q)
        \/
        (exists before key m after,
           waitTimesMap = before ++ (key, m) :: after /\
           fuzzyMatch hospitalName waitTimesMap = Some m /\
           (1 # 2 < score key)%Q /\
           (forall k' m', In (k', m') before -> (score k' < score key)%Q) /\
           (forall k' m', In (k', m') after -> (score k' <= score key)%Q))
    end
    /\ (forall key,
          (0 < score key)%Q <->
          exists w, (2 < List.length w)%nat /\
                    In w (split 32 normalized) /\ In w (split 32 key))
    /\ @normalizeName latinHost (js "st. mary's hospital") = js "st marys hospital"
    /\ @fuzzyMatch latinHost (js "st. mary's hospital") [(js "st marys hospital", 25%Z)]
       = Some 25%Z
    /\ (overlapScore (@normalizeName latinHost (js "st. mary's hospital"))
          (js "st marys hospital") == 1)%Q
    /\ (overlapScore (@normalizeName latinHost (js "st. mary's hospital"))
          (js "childrens medical center") == 0)%Q
    /\ @fuzzyMatch latinHost (js "st. mary's hospital")
         [(js "childrens medical center", 40%Z)] = None
    /\ @normalizeName latinHost (js "Inova Fairfax Hospital - Emergency")
       = js "inova fairfax hospital emergency"
    /\ (overlapScore (js "inova fairfax hospital emergency")
          (js "inova hospital emergency") == 3 # 4)%Q
    /\ (overlapScore (js "inova fairfax hospital emergency")
          (js "inova fairfax hospital emergency room") == 4 # 5)%Q
    /\ (overlapScore (js "inova fairfax hospital emergency")
          (js "inova loudoun hospital") == 1 # 2)%Q
    /\ @fuzzyMatch latinHost (js "Inova Fairfax Hospital - Emergency")
         [(js "inova hospital emergency", 10%Z);
          (js "inova fairfax hospital emergency room", 48%Z);
          (js "inova loudoun hospital", 12%Z)] = Some 48%Z
    /\ @fuzzyMatch latinHost (js "Inova Fairfax Hospital - Emergency")
         [(js "inova loudoun hospital", 12%Z)] = None.
Proof.
  intros host hospitalName waitTimesMap normalized score.
  split; [|split; [intro key; apply overlapScore_pos_iff | repeat split; reflexivity]].
  unfold fuzzyMatch. fold normalized.
  destruct (lookup normalized waitTimesMap) as [minutes|] eqn:Hl; [reflexivity|].
  destruct (bestOverlap_spec normalized waitTimesMap None 0)
    as [[Hr Hall] | (l1 & key & m & l2 & Hsplit & Hr & _ & Hhalf & Hl1 & Hl2)].
  - left. split; [exact Hr|].
    intros key m Hin. destruct (Hall _ _ Hin) as [H|H]; [|exact H].
    eapply Qle_trans; [exact H|]. unfold Qle; cbn; lia.
  - right. exists l1, key, m, l2. repeat split; assumption.
Qed.

(** ** Script detection *)

Lemma hasCharIn_Permutation (lo hi : N) (s t : jsstring) :
  Permutation s t -> hasCharIn lo hi s = hasCharIn lo hi t.
Proof.
  intro P. unfold hasCharIn.
  induction P; cbn.
  - reflexivity.
  - now rewrite IHP.
  - now rewrite !orb_assoc, (orb_comm (_ && _) (_ && _)).
  - congruence.
Qed.

Lemma firstScript_Permutation scripts fallback (s t : jsstring) :
  Permutation s t -> firstScript scripts fallback s = firstScript scripts fallback t.
Proof.
  intro P. unfold firstScript.
  induction scripts as [|[[lo hi] code] rest IH]; cbn; [reflexivity|].
  rewrite (hasCharIn_Permutation lo hi P).
  destruct (hasCharIn lo hi t); [reflexivity | exact IH].
Qed.

Lemma detectLanguage_firstScript (symptoms : list jsstring) :
  detectLanguageFromSymptoms symptoms
  = firstScript scriptPriority (js "en") (join (js " ") symptoms).
Proof.
  unfold detectLanguageFromSymptoms, firstScript, scriptPriority.
  cbn [find].
  repeat match goal with
         | |- context [hasCharIn ?lo ?hi ?t] => destruct (hasCharIn lo hi t); try reflexivity
         end.
Qed.

Lemma detectLanguage_supported (symptoms : list jsstring) :
  includes SUPPORTED_LANGUAGES (detectLanguageFromSymptoms symptoms) = true.
Proof.
  unfold detectLanguageFromSymptoms.
  repeat match goal with
         | |- context [hasCharIn ?lo ?hi ?t] => destruct (hasCharIn lo hi t); try reflexivity
         end.
Qed.

Lemma hasCharIn_spec (lo hi : N) (text : jsstring) :
  hasCharIn lo hi text = true <-> exists c, In c text /\ (lo <= c <= hi)%N.
Proof.
  unfold hasCharIn. rewrite existsb_exists.
  split; intros (c & Hin & H); exists c; (split; [exact Hin|]).
  - apply andb_prop in H. destruct H as [H1 H2].
    apply N.leb_le in H1. apply N.leb_le in H2. lia.
  - apply andb_true_intro. split; apply N.leb_le; lia.
Qed.

(** The first script of a table that has a character in the text decides,
    and the fallback is for a text no script of the table has a character
    in. *)
Lemma firstScript_spec (scripts : list (N * N * jsstring)) (fallback text : jsstring) :
  let holds := fun script : N * N * jsstring =>
    exists c, In c text /\ (fst (fst script) <= c <= snd (fst script))%N in
  (forall earlier script later,
     scripts = earlier ++ script :: later ->
     holds script -> (forall s, In s earlier -> ~ holds s) ->
     firstScript scripts fallback text = snd script) /\
  ((forall s, In s scripts -> ~ holds s) -> firstScript scripts fallback text = fallback).
Proof.
  intro holds. unfold firstScript. split.
  - intros earlier script later -> Hs Hearlier.
    induction earlier as [|[[lo hi] code] earlier IH]; cbn [app find].
    + destruct script as [[lo hi] code]. unfold holds in Hs. cbn [fst snd] in Hs.
      apply hasCharIn_spec in Hs. cbv beta iota. now rewrite Hs.
    + assert (Hn : hasCharIn lo hi text = false).
      { destruct (hasCharIn lo hi text) eqn:E; [|reflexivity].
        exfalso. apply (Hearlier (lo, hi, code)); [now left|].
        apply hasCharIn_spec in E. exact E. }
      cbv beta iota. rewrite Hn. apply IH. intros s Hin. apply Hearlier. now right.
  - intro Hnone.
    induction scripts as [|[[lo hi] code] rest IH]; cbn [find]; [reflexivity|].
    assert (Hn : hasCharIn lo hi text = false).
    { destruct (hasCharIn lo hi text) eqn:E; [|reflexivity].
      exfalso. apply (Hnone (lo, hi, code)); [now left|].
      apply hasCharIn_spec in E. exact E. }
    cbv beta iota. rewrite Hn. apply IH. intros s Hin. apply Hnone. now right.
Qed.

(** C10. [detectLanguageFromSymptoms] always answers with a supported
    code; the answer is the language of the first script, in the order
    Arabic, Cyrillic, Han, kana, Hangul, Devanagari, Telugu, that has a
    character in the joined text, ['en'] when none has; and two inputs
    whose joined texts hold the same characters at other positions get the
    same answer. *)
Theorem detectLanguage_priority_order :
  forall symptoms symptoms' : list jsstring,
    Permutation (join (js " ") symptoms) (join (js " ") symptoms') ->
    let text := join (js " ") symptoms in
    let holds := fun script : N * N * jsstring =>
      exists c, In c text /\ (fst (fst script) <= c <= snd (fst script))%N in
    includes SUPPORTED_LANGUAGES (detectLanguageFromSymptoms symptoms) = true /\
    (forall earlier script later,
       [ (0x0600, 0x06FF, js "ar"); (0x0400, 0x04FF, js "ru");
         (0x4E00, 0x9FFF, js "zh"); (0x3040, 0x30FF, js "ja");
         (0xAC00, 0xD7AF, js "ko"); (0x0900, 0x097F, js "hi");
         (0x0C00, 0x0C7F, js "te") ]%N = earlier ++ script :: later ->
       holds script -> (forall s, In s earlier -> ~ holds s) ->
       detectLanguageFromSymptoms symptoms = snd script) /\
    ((forall c, In c text ->
        ~ (0x0600 <= c <= 0x06FF)%N /\ ~ (0x0400 <= c <= 0x04FF)%N /\
        ~ (0x4E00 <= c <= 0x9FFF)%N /\ ~ (0x3040 <= c <= 0x30FF)%N /\
        ~ (0xAC00 <= c <= 0xD7AF)%N /\ ~ (0x0900 <= c <= 0x097F)%N /\
        ~ (0x0C00 <= c <= 0x0C7F)%N) ->
     detectLanguageFromSymptoms symptoms = js "en") /\
    detectLanguageFromSymptoms symptoms = detectLanguageFromSymptoms symptoms'.
Proof.
  intros symptoms symptoms' P text holds.
  split; [apply detectLanguage_supported|].
  rewrite !detectLanguage_firstScript. fold text.
  destruct (firstScript_spec scriptPriority (js "en") text) as [Hfirst Hnone].
  split; [exact Hfirst|].
  split; [|now apply firstScript_Permutation].
  intro Hc. apply Hnone. intros s Hin (c & Hct & Hrange).
  destruct (Hc c Hct) as (H1 & H2 & H3 & H4 & H5 & H6 & H7).
  cbn in Hin.
  repeat (destruct Hin as [<-|Hin]; [cbn in Hrange; tauto|]).
  exact Hin.
Qed.

(** Telugu before Arabic in the text, then Arabic before Telugu: ['ar']
    both times. *)
Lemma detectLanguage_priority_order_witness :
  let telugu_first := [[0x0C05]; [0x0627]]%N in
  let arabic_first := [[0x0627]; [0x0C05]]%N in
  Permutation (join (js " ") telugu_first) (join (js " ") arabic_first) /\
  detectLanguageFromSymptoms telugu_first = js "ar" /\
  detectLanguageFromSymptoms arabic_first = js "ar".
Proof.
  assert (P : Permutation (join (js " ") [[0x0C05]; [0x0627]]%N)
                          (join (js " ") [[0x0627]; [0x0C05]]%N))
    by exact (Permutation_rev [0x0C05; 32; 0x0627]%N).
  destruct (detectLanguage_priority_order _ _ P) as (_ & Hfirst & _ & Hsame).
  assert (A : detectLanguageFromSymptoms [[0x0C05]; [0x0627]]%N = js "ar").
  { apply (Hfirst [] (0x0600, 0x06FF, js "ar")%N _ eq_refl).
    - exists 0x0627%N. split; [cbn; tauto | cbn; lia].
    - intros s []. }
  split; [exact P|]. split; [exact A|]. rewrite <- Hsame. exact A.
Defined.

Example detectLanguage_mixed_scripts :
  detectLanguageFromSymptoms [[0x0C05]; [0x0627]]%N = js "ar".
Proof. reflexivity. Qed.

(** ** The synthetic wait time *)

Fixpoint all_from (fuel : nat) (r : Z) (p : Z -> bool) : bool :=
  match fuel with
  | O => true
  | S k => p r && all_from k (r + 1)%Z p
  end.

Lemma all_from_spec (fuel : nat) :
  forall r p, all_from fuel r p = true ->
    forall x, (r <= x < r + Z.of_nat fuel)%Z -> p x = true.
Proof.
  induction fuel as [|k IH]; intros r p H x Hx; [lia|].
  cbn [all_from] in H. apply andb_prop in H. destruct H as [H0 H].
  destruct (Z.eq_dec x r) as [->|N]; [exact H0|].
  apply (@IH (r + 1)%Z p H). lia.
Qed.

(** Every remainder lands between the two ends of the range, in double
    arithmetic: checked on each of the 233280 remainders. *)
Lemma scaleToRange_between (r : Z) :
  (0 <= r < 233280)%Z ->
  PrimFloat.leb (f64_of_Z 15) (scaleToRange WAIT_RANGES_default r) = true /\
  PrimFloat.leb (scaleToRange WAIT_RANGES_default r) (f64_of_Z 90) = true.
Proof.
  intro Hr. apply andb_prop.
  refine (@all_from_spec (Z.to_nat 233280) 0%Z
            (fun r => PrimFloat.leb (f64_of_Z 15) (scaleToRange WAIT_RANGES_default r)
                      && PrimFloat.leb (scaleToRange WAIT_RANGES_default r) (f64_of_Z 90))
            _ r _).
  - vm_compute. reflexivity.
  - rewrite Z2Nat.id; lia.
Qed.

Lemma digits2_pos_size (m : positive) : digits2_pos m = Pos.size m.
Proof. induction m; cbn; congruence. Qed.

Lemma digits2_pos_bounds (m d : positive) :
  digits2_pos m = d -> (2 ^ (Z.pos d - 1) <= Z.pos m < 2 ^ Z.pos d)%Z.
Proof.
  intros <-. rewrite digits2_pos_size.
  pose proof (Pos.size_gt m) as G. pose proof (Pos.size_le m) as L.
  apply Pos2Z.pos_lt_pos in G. apply Pos2Z.pos_le_pos in L.
  rewrite Pos2Z.inj_pow in G, L.
  split; [|exact G].
  replace (Z.pos (Pos.size m)) with (Z.succ (Z.pos (Pos.size m) - 1)) in L by lia.
  rewrite Z.pow_succ_r in L by lia.
  change (Z.pos m~0) with (2 * Z.pos m)%Z in L. lia.
Qed.

Lemma compare_cont_Eq_le (a b : positive) :
  match PosDef.Pos.compare_cont Eq a b with Gt => false | _ => true end = true ->
  (Z.pos a <= Z.pos b)%Z.
Proof.
  intro H. apply Pos2Z.pos_le_pos. unfold Pos.le, Pos.compare.
  intro G. rewrite G in H. discriminate.
Qed.

(** A double between 15 and 90 rounds to an integer between 15 and 90. *)
Lemma Math_round_between (s : float) :
  PrimFloat.leb (f64_of_Z 15) s = true -> PrimFloat.leb s (f64_of_Z 90) = true ->
  exists w, Math_round s = num w /\ (15 <= w <= 90)%Z.
Proof.
  rewrite !FloatAxioms.leb_spec. unfold Math_round.
  pose proof (FloatAxioms.Prim2SF_valid s) as V.
  change (FloatOps.Prim2SF (f64_of_Z 15))
    with (S754_finite false 8444249301319680 (-49)).
  change (FloatOps.Prim2SF (f64_of_Z 90))
    with (S754_finite false 6333186975989760 (-46)).
  unfold SFleb, SFcompare.
  destruct (FloatOps.Prim2SF s) as [sg|[|]| |[|] m e]; try discriminate.
  cbn in V.
  unfold bounded, canonical_mantissa, fexp, SpecFloat.emin, FloatOps.prec, FloatOps.emax in V.
  apply andb_prop in V. destruct V as [V _]. apply Z.eqb_eq in V.
  assert (F : forall P : Prop,
             (e = (-49)%Z -> (8444249301319680 <= Z.pos m)%Z -> P) ->
             (e = (-48)%Z -> P) -> (e = (-47)%Z -> P) ->
             (e = (-46)%Z -> (Z.pos m <= 6333186975989760)%Z -> P) ->
             match match (-49 ?= e)%Z with
                   | Eq => PosDef.Pos.compare_cont Eq 8444249301319680 m
                   | Lt => Lt | Gt => Gt end
             with Gt => false | _ => true end = true ->
             match match (e ?= -46)%Z with
                   | Eq => PosDef.Pos.compare_cont Eq m 6333186975989760
                   | Lt => Lt | Gt => Gt end
             with Gt => false | _ => true end = true -> P).
  { intros P P49 P48 P47 P46.
    destruct (Z.compare_spec (-49) e) as [A|A|A]; intro H1;
      [apply compare_cont_Eq_le in H1 | | discriminate H1];
      (destruct (Z.compare_spec e (-46)) as [B|B|B]; intro H2;
       [apply compare_cont_Eq_le in H2 | | discriminate H2]).
    - lia.
    - apply P49; [lia | exact H1].
    - apply P46; [exact B | exact H2].
    - assert (C : e = (-48)%Z \/ e = (-47)%Z) by lia. destruct C; auto. }
  assert (D : (-49 <= e <= -46)%Z ->
              (4503599627370496 <= Z.pos m < 9007199254740992)%Z).
  { intro E. assert (D : digits2_pos m = 53%positive) by lia.
    apply digits2_pos_bounds in D. exact D. }
  clear V.
  apply F; clear F; intros ->; [intros M | | | intros M];
    specialize (D ltac:(lia));
    eexists; (split; [reflexivity|]); cbv beta iota zeta.
  - change (2 ^ Z.pos 49)%Z with 562949953421312%Z.
    change (2 ^ (Z.pos 49 + 1))%Z with 1125899906842624%Z.
    split; [apply Z.div_le_lower_bound | apply Z.div_le_upper_bound]; lia.
  - change (2 ^ Z.pos 48)%Z with 281474976710656%Z.
    change (2 ^ (Z.pos 48 + 1))%Z with 562949953421312%Z.
    split; [apply Z.div_le_lower_bound | apply Z.div_le_upper_bound]; lia.
  - change (2 ^ Z.pos 47)%Z with 140737488355328%Z.
    change (2 ^ (Z.pos 47 + 1))%Z with 281474976710656%Z.
    split; [apply Z.div_le_lower_bound | apply Z.div_le_upper_bound]; lia.
  - change (2 ^ Z.pos 46)%Z with 70368744177664%Z.
    change (2 ^ (Z.pos 46 + 1))%Z with 140737488355328%Z.
    split; [apply Z.div_le_lower_bound; lia|].
    apply Z.lt_succ_r. apply Z.div_lt_upper_bound; lia.
Qed.

Lemma charCodeSum_nonneg (s : jsstring) : (0 <= charCodeSum s)%Z.
Proof.
  unfold charCodeSum.
  assert (G : forall acc, (0 <= acc)%Z ->
            (0 <= fold_left (fun seed c => seed + Z.of_N c)%Z s acc)%Z).
  { induction s as [|c s IH]; intros acc Hacc; cbn; [exact Hacc|].
    apply IH. lia. }
  apply G. lia.
Qed.

Lemma getHours_range (d : Date) : (0 <= getHours d < 24)%Z.
Proof. unfold getHours. apply Z.mod_pos_bound. lia. Qed.

Lemma generateSyntheticWait_range (now : Date) (hospitalName : jsstring) :
  exists w, generateSyntheticWait now hospitalName = num w /\ (15 <= w <= 90)%Z.
Proof.
  unfold generateSyntheticWait.
  pose proof (charCodeSum_nonneg hospitalName) as Hs.
  pose proof (getHours_range now) as Hh.
  set (x := ((charCodeSum hospitalName + getHours now) * 9301 + 49297)%Z).
  assert (Hx : (0 <= x)%Z) by (unfold x; nia).
  pose proof (Z.rem_bound_pos x 233280 Hx ltac:(lia)) as Hr.
  destruct (scaleToRange_between Hr) as [L U].
  exact (Math_round_between L U).
Qed.

Example generateSyntheticWait_General_Hospital :
  generateSyntheticWait (mkDate 36000000 0) (js "General Hospital") = num 31 /\
  generateSyntheticWait (mkDate 39600000 0) (js "General Hospital") = num 33.
Proof. split; vm_compute; reflexivity. Qed.

(** C7. For every hospital name and every reading of the clock,
    [generateSyntheticWait] returns an integer between 15 and 90; two
    calls with the same name at instants of the same hour of the day
    return the same value; and calls in different hours can differ: at
    10 o'clock and at 11 o'clock "General Hospital" gets two different
    values. *)
Theorem generateSyntheticWait_in_range_and_hourly :
  forall (hospitalName : jsstring) (now later : Date),
    getHours now = getHours later ->
    (exists w, generateSyntheticWait now hospitalName = num w /\ (15 <= w <= 90)%Z) /\
    generateSyntheticWait now hospitalName = generateSyntheticWait later hospitalName /\
    generateSyntheticWait (mkDate 36000000 0) (js "General Hospital")
    <> generateSyntheticWait (mkDate 39600000 0) (js "General Hospital").
Proof.
  intros hospitalName now later Hhour.
  split; [apply generateSyntheticWait_range|].
  split.
  - unfold generateSyntheticWait. rewrite Hhour. reflexivity.
  - destruct generateSyntheticWait_General_Hospital as [-> ->].
    discriminate.
Qed.

(** Five past ten in UTC and five to eleven in a zone one day ahead. *)
Lemma generateSyntheticWait_in_range_and_hourly_witness :
  let now := mkDate 36300000 0 in
  let later := mkDate (-47100000) 1440 in
  getHours now = getHours later /\
  (exists w, generateSyntheticWait now (js "General Hospital") = num w
             /\ (15 <= w <= 90)%Z) /\
  generateSyntheticWait now (js "General Hospital")
  = generateSyntheticWait later (js "General Hospital").
Proof.
  assert (H : getHours (mkDate 36300000 0) = getHours (mkDate (-47100000) 1440))
    by reflexivity.
  destruct (@generateSyntheticWait_in_range_and_hourly
              (js "General Hospital") _ _ H) as (R & E & _).
  exact (conj H (conj R E)).
Defined.

(** ** The batch of facilities *)

(** What the facility at index [i] gets, given what its scrape produced. *)
Definition resolvedAs
  (scrape : nat -> option jsstring -> option jsstring -> Outcome (option number))
  (clock : nat -> Date) (i : nat) (h : Hospital) (r : Enriched) : Prop :=
  source r = h /\
  match scrape i (hospital_name h) (websiteOrNull h) with
  | Ok (Some minutes) => waitTime r = minutes /\ waitTimeEstimated r = false
  | Ok None | Throw _ =>
      waitTimeEstimated r = true /\
      exists name, hospital_name h = Some name /\
                   waitTime r = generateSyntheticWait (clock i) name
  end.

Lemma resolveHospital_named scrape clock (i : nat) (h : Hospital) :
  hospital_name h <> None ->
  exists r,
    resolveHospital (scrape i (hospital_name h) (websiteOrNull h)) (clock i) h = Ok r /\
    resolvedAs scrape clock i h r.
Proof.
  intro Hname. unfold resolveHospital, resolvedAs.
  destruct (hospital_name h) as [name|] eqn:En; [|congruence].
  destruct (scrape i (Some name) (websiteOrNull h)) as [[minutes|]|e]; cbn.
  - eexists. split; [reflexivity|]. cbn. auto.
  - eexists. split; [reflexivity|]. cbn. eauto.
  - eexists. split; [reflexivity|]. cbn. eauto.
Qed.

Lemma getWaitTimes_from scrape clock (hospitals : list Hospital) :
  (forall h, In h hospitals -> hospital_name h <> None) ->
  forall i0,
  exists results,
    Promise_all
      (mapi_from i0
         (fun i hospital =>
            resolveHospital (scrape i (hospital_name hospital) (websiteOrNull hospital))
              (clock i) hospital)
         hospitals) = Ok results /\
    Forall2 (fun h r => source r = h) hospitals results /\
    forall i h r, nth_error hospitals i = Some h -> nth_error results i = Some r ->
                  resolvedAs scrape clock (i0 + i) h r.
Proof.
  induction hospitals as [|h hs IH]; intros Hnames i0.
  - exists []. split; [reflexivity|]. split; [constructor|].
    intros [|i] ? ? H; discriminate H.
  - destruct (@resolveHospital_named scrape clock i0 h (Hnames h (or_introl eq_refl)))
      as (r & Hr & Hres).
    destruct (IH (fun h' Hin => Hnames h' (or_intror Hin)) (S i0))
      as (rs & Hrs & Hsrc & Hall).
    exists (r :: rs). cbn [mapi_from Promise_all]. rewrite Hr, Hrs.
    split; [reflexivity|]. split.
    + constructor; [apply Hres | exact Hsrc].
    + intros [|i] h' r' Hh Hr'; cbn in Hh, Hr'.
      * inversion Hh; inversion Hr'; subst. rewrite Nat.add_0_r. exact Hres.
      * replace (i0 + S i)%nat with (S i0 + i)%nat by lia. eauto.
Qed.

(** C4. For every batch of facilities that each have a name,
    whatever each scrape does (a value, nothing, or an exception such as
    a timeout), [getWaitTimes] resolves with exactly one result per
    facility, in the order of the input, each carrying its facility
    unchanged; a facility whose scrape gave minutes carries them with
    [waitTimeEstimated = false]; a facility whose scrape gave [null] or
    threw carries the synthetic estimate with [waitTimeEstimated = true]. *)
Theorem getWaitTimes_one_result_per_facility :
  forall scrape clock (hospitals : list Hospital),
    (forall h, In h hospitals -> hospital_name h <> None) ->
    exists results,
      getWaitTimes scrape clock hospitals = Ok results /\
      List.length results = List.length hospitals /\
      map source results = hospitals /\
      forall i h r, nth_error hospitals i = Some h -> nth_error results i = Some r ->
                    resolvedAs scrape clock i h r.
Proof.
  intros scrape clock hospitals Hnames.
  destruct (@getWaitTimes_from scrape clock hospitals Hnames 0%nat)
    as (results & Hall & Hsrc & Hres).
  exists results. split; [exact Hall|].
  split; [symmetry; exact (Forall2_length Hsrc)|].
  split; [|exact Hres].
  clear -Hsrc. induction Hsrc; cbn; congruence.
Qed.

Lemma getWaitTimes_one_result_per_facility_witness :
  (forall h, In h fiveHospitals -> hospital_name h <> None) /\
  exists results,
    getWaitTimes thirdTimesOut (fun _ => mkDate 36000000 0) fiveHospitals = Ok results /\
    List.length results = List.length fiveHospitals /\
    map source results = fiveHospitals /\
    forall i h r, nth_error fiveHospitals i = Some h -> nth_error results i = Some r ->
                  resolvedAs thirdTimesOut (fun _ => mkDate 36000000 0) i h r.
Proof.
  assert (H : forall h, In h fiveHospitals -> hospital_name h <> None).
  { intros h Hin. cbn in Hin.
    repeat (destruct Hin as [<- | Hin]; [discriminate|]). destruct Hin. }
  exact (conj H (@getWaitTimes_one_result_per_facility
                   thirdTimesOut (fun _ => mkDate 36000000 0) fiveHospitals H)).
Defined.

Example getWaitTimes_third_times_out :
  match getWaitTimes thirdTimesOut (fun _ => mkDate 36000000 0) fiveHospitals with
  | Ok results =>
      map waitTimeEstimated results = [false; true; true; true; true] /\
      map source results = fiveHospitals /\
      nth_error (map waitTime results) 1 = Some (num 31)
  | Throw _ => False
  end.
Proof. vm_compute. repeat split. Qed.

(** ** Extracting the JSON object from the text of the model *)

Lemma trimStart_app (p : jsstring) (c : N) (rest : jsstring) :
  isWhiteSpace c = false ->
  trimStart (p ++ c :: rest) = trimStart p ++ c :: rest.
Proof.
  intro Hc. induction p as [|a p IH]; cbn.
  - now rewrite Hc.
  - destruct (isWhiteSpace a); [exact IH | reflexivity].
Qed.

Lemma trimStart_forallb (f : N -> bool) (s : jsstring) :
  forallb f s = true -> forallb f (trimStart s) = true.
Proof.
  induction s as [|a s IH]; cbn; [auto|].
  intro H. apply andb_prop in H. destruct H as [Ha Hs].
  destruct (isWhiteSpace a); [auto|]. cbn. now rewrite Ha, Hs.
Qed.

Lemma forallb_rev (f : N -> bool) (s : jsstring) :
  forallb f (rev s) = forallb f s.
Proof.
  induction s as [|a s IH]; cbn; [reflexivity|].
  rewrite forallb_app, IH. cbn. rewrite andb_true_r. apply andb_comm.
Qed.

Lemma trimEnd_forallb (f : N -> bool) (s : jsstring) :
  forallb f s = true -> forallb f (trimEnd s) = true.
Proof.
  intro H. unfold trimEnd. rewrite forallb_rev.
  apply trimStart_forallb. now rewrite forallb_rev.
Qed.

(** Trimming a text whose two ends are not white space only touches what
    is around them. *)
Lemma trim_around (p : jsstring) (a : N) (mid : jsstring) (b : N) (s : jsstring) :
  isWhiteSpace a = false -> isWhiteSpace b = false ->
  trim (p ++ (a :: mid ++ [b]) ++ s) = trimStart p ++ (a :: mid ++ [b]) ++ trimEnd s.
Proof.
  intros Ha Hb. unfold trim.
  cbn [app]. rewrite <- !app_assoc. cbn [app].
  rewrite trimStart_app by exact Ha.
  unfold trimEnd at 1.
  replace (rev (trimStart p ++ a :: mid ++ b :: s))
    with (rev s ++ b :: rev (trimStart p ++ a :: mid)).
  2:{ symmetry.
      change (trimStart p ++ a :: mid ++ b :: s)
        with (trimStart p ++ (a :: mid) ++ b :: s).
      rewrite (app_assoc (trimStart p) (a :: mid) (b :: s)).
      rewrite (rev_app_distr (trimStart p ++ a :: mid) (b :: s)).
      cbn [rev]. rewrite <- app_assoc. reflexivity. }
  rewrite trimStart_app by exact Hb.
  rewrite rev_app_distr. cbn [rev]. rewrite rev_involutive.
  unfold trimEnd. rewrite <- !app_assoc. reflexivity.
Qed.

Lemma indexOf_app (c : N) (p rest : jsstring) :
  forallb (fun x => negb (x =? c)%N) p = true ->
  indexOf c (p ++ c :: rest) = Some (List.length p).
Proof.
  induction p as [|a p IH]; cbn.
  - now rewrite N.eqb_refl.
  - intro H. apply andb_prop in H. destruct H as [Ha Hp].
    apply negb_true_iff in Ha. rewrite Ha, (IH Hp). reflexivity.
Qed.

Lemma lastIndexOf_none (c : N) (s : jsstring) :
  forallb (fun x => negb (x =? c)%N) s = true -> lastIndexOf c s = None.
Proof.
  induction s as [|a s IH]; cbn; [reflexivity|].
  intro H. apply andb_prop in H. destruct H as [Ha Hs].
  apply negb_true_iff in Ha. now rewrite (IH Hs), Ha.
Qed.

Lemma lastIndexOf_app (c : N) (p s : jsstring) :
  forallb (fun x => negb (x =? c)%N) s = true ->
  lastIndexOf c (p ++ c :: s) = Some (List.length p).
Proof.
  intro Hs. induction p as [|a p IH]; cbn.
  - now rewrite (lastIndexOf_none _ _ Hs), N.eqb_refl.
  - now rewrite IH.
Qed.

Lemma noBrace_open (s : jsstring) :
  noBrace s = true -> forallb (fun x => negb (x =? 123)%N) s = true.
Proof.
  unfold noBrace. induction s as [|a s IH]; cbn; [reflexivity|].
  intro H. apply andb_prop in H. destruct H as [Ha Hs].
  rewrite (IH Hs), andb_true_r.
  apply negb_true_iff in Ha. apply orb_false_iff in Ha. destruct Ha as [Ha _].
  now rewrite Ha.
Qed.

Lemma noBrace_close (s : jsstring) :
  noBrace s = true -> forallb (fun x => negb (x =? 125)%N) s = true.
Proof.
  unfold noBrace. induction s as [|a s IH]; cbn; [reflexivity|].
  intro H. apply andb_prop in H. destruct H as [Ha Hs].
  rewrite (IH Hs), andb_true_r.
  apply negb_true_iff in Ha. apply orb_false_iff in Ha. destruct Ha as [_ Ha].
  now rewrite Ha.
Qed.

Section ParseFacts.
Context {host : Host}.

(** The ladder of [parseJsonFromText], rung by rung. *)
Lemma parseJsonFromText_ladder (text : jsstring) :
  let raw := trim text in
  (raw = [] -> parseJsonFromText text = Throw (newError (js "Gemini returned empty text")))
  /\
  (forall v, raw <> [] -> JSON_parse raw = Ok v -> parseJsonFromText text = Ok v)
  /\
  (forall e, raw <> [] -> JSON_parse raw = Throw e ->
     (exists start end_,
        indexOf 123 raw = Some start /\ lastIndexOf 125 raw = Some end_ /\
        (start < end_)%nat /\
        parseJsonFromText text =
        match JSON_parse (slice start (end_ + 1) raw) with
        | Ok v => Ok v
        | Throw err => Throw (newError (js "Gemini JSON parse failed: " ++ message err))
        end)
     \/
     ((indexOf 123 raw = None \/ lastIndexOf 125 raw = None \/
       exists start end_, indexOf 123 raw = Some start /\
                          lastIndexOf 125 raw = Some end_ /\ (end_ <= start)%nat) /\
      parseJsonFromText text = Throw (newError (js "Gemini returned non-JSON output")))).
Proof.
  intro raw. unfold parseJsonFromText. fold raw.
  split; [|split].
  - intros ->. reflexivity.
  - intros v Hne Hp. destruct raw; [congruence|]. cbn [nonEmpty negb]. now rewrite Hp.
  - intros e Hne Hp. destruct raw as [|c raw'] eqn:Eraw; [congruence|].
    cbn [nonEmpty negb]. rewrite Hp.
    destruct (indexOf 123 (c :: raw')) as [start|] eqn:Ei; [|right; auto].
    destruct (lastIndexOf 125 (c :: raw')) as [end_|] eqn:El; [|right; auto].
    destruct (Nat.leb end_ start) eqn:Ele.
    + right. apply Nat.leb_le in Ele. split; [|reflexivity].
      right; right. eauto.
    + left. apply Nat.leb_gt in Ele. exists start, end_. auto.
Qed.

(** An object between brace-free noise is recovered, unless the noisy
    text as a whole is itself JSON for something else. *)
Lemma parseJsonFromText_noisy (prefix mid suffix : jsstring) (v : json) :
  let body := (123 :: mid ++ [125])%N in
  let text := prefix ++ body ++ suffix in
  noBrace prefix = true -> noBrace suffix = true ->
  JSON_parse body = Ok v ->
  (forall v', JSON_parse (trim text) = Ok v' -> v' = v) ->
  parseJsonFromText text = Ok v.
Proof.
  intros body text Hp Hs Hbody Hdirect.
  assert (Hraw : trim text = trimStart prefix ++ body ++ trimEnd suffix)
    by (apply trim_around; reflexivity).
  unfold parseJsonFromText. rewrite Hraw in *.
  set (before := trimStart prefix) in *. set (after := trimEnd suffix) in *.
  assert (HP : noBrace before = true) by (apply trimStart_forallb; exact Hp).
  assert (HS : noBrace after = true) by (apply trimEnd_forallb; exact Hs).
  replace (nonEmpty (before ++ body ++ after)) with true by (destruct before; reflexivity).
  cbn [negb].
  destruct (JSON_parse (before ++ body ++ after)) as [v'|e] eqn:Ed.
  - f_equal. now apply Hdirect.
  - unfold body at 1 2. cbn [app].
    rewrite indexOf_app by (apply noBrace_open; exact HP).
    replace (before ++ 123%N :: (mid ++ [125%N]) ++ after)
      with ((before ++ 123%N :: mid) ++ 125%N :: after)
      by (rewrite <- !app_assoc; reflexivity).
    rewrite lastIndexOf_app by (apply noBrace_close; exact HS).
    rewrite length_app. cbn [List.length].
    replace (Nat.leb (List.length before + S (List.length mid)) (List.length before))
      with false by (symmetry; apply Nat.leb_gt; lia).
    unfold slice.
    rewrite skipn_app, skipn_all, Nat.sub_diag. cbn [skipn app].
    replace (List.length before + S (List.length mid) + 1 - List.length before)%nat
      with (List.length body)
      by (unfold body; cbn [List.length]; rewrite length_app; cbn; lia).
    rewrite firstn_app, firstn_all, Nat.sub_diag. cbn [firstn].
    rewrite app_nil_r. now rewrite Hbody.
Qed.

End ParseFacts.

(** Prose that itself holds braces defeats the extraction: the object is
    there, and well formed, and is not recovered. *)
Lemma parseJsonFromText_braces_in_prose :
  @JSON_parse fluHost fluText = Ok fluObject /\
  @parseJsonFromText fluHost (js "Result {json}: " ++ fluText)
  = Throw (newError (js "Gemini JSON parse failed: Unexpected token")).
Proof. split; vm_compute; reflexivity. Qed.

(** C8, as the code has it. [parseJsonFromText] trims the text; an empty
    text fails; a text that parses as a whole gives that value;
    otherwise the substring from the first ['{'] to the last ['}'] is
    parsed, and the call fails with a parse error when there are no such
    braces or when that substring does not parse either. An object
    serialized between noise that holds no brace is recovered exactly,
    unless the noisy text as a whole is JSON for another value. *)
Theorem parseJsonFromText_two_stage :
  forall (host : Host) (prefix mid suffix : jsstring) (v : json),
    let body := (123 :: mid ++ [125])%N in
    let text := prefix ++ body ++ suffix in
    noBrace prefix = true -> noBrace suffix = true ->
    JSON_parse body = Ok v ->
    (forall v', JSON_parse (trim text) = Ok v' -> v' = v) ->
    parseJsonFromText text = Ok v /\
    forall any : jsstring,
      let raw := trim any in
      (raw = [] ->
       parseJsonFromText any = Throw (newError (js "Gemini returned empty text")))
      /\
      (forall v', raw <> [] -> JSON_parse raw = Ok v' -> parseJsonFromText any = Ok v')
      /\
      (forall e, raw <> [] -> JSON_parse raw = Throw e ->
         (exists start end_,
            indexOf 123 raw = Some start /\ lastIndexOf 125 raw = Some end_ /\
            (start < end_)%nat /\
            parseJsonFromText any =
            match JSON_parse (slice start (end_ + 1) raw) with
            | Ok v' => Ok v'
            | Throw err =>
                Throw (newError (js "Gemini JSON parse failed: " ++ message err))
            end)
         \/
         ((indexOf 123 raw = None \/ lastIndexOf 125 raw = None \/
           exists start end_, indexOf 123 raw = Some start /\
                              lastIndexOf 125 raw = Some end_ /\ (end_ <= start)%nat) /\
          parseJsonFromText any
          = Throw (newError (js "Gemini returned non-JSON output")))).
Proof.
  intros host prefix mid suffix v body text Hp Hs Hbody Hdirect.
  split.
  - now apply parseJsonFromText_noisy.
  - intro any. apply parseJsonFromText_ladder.
Qed.

(** The object of the examples inside a code fence. *)
Lemma parseJsonFromText_two_stage_witness :
  let fence := [96; 96; 96]%N in
  let mid := removelast (tl fluText) in
  @parseJsonFromText fluHost
    ((fence ++ js "json" ++ [10%N]) ++ (123%N :: mid ++ [125%N]) ++ ([10%N] ++ fence))
  = Ok fluObject.
Proof.
  refine (proj1 (@parseJsonFromText_two_stage fluHost
                   ([96; 96; 96]%N ++ js "json" ++ [10%N])
                   (removelast (tl fluText))
                   ([10%N] ++ [96; 96; 96]%N) fluObject _ _ _ _)).
  - reflexivity.
  - reflexivity.
  - vm_compute. reflexivity.
  - intros v' H. vm_compute in H. discriminate H.
Defined.

(** ** The model-call chain *)

Section ChainFacts.
Context {host : Host}.
Variable env : Env.
Variable backend : Backend.
Variable requestPayload : Request.
Hypothesis key_present : orElse (GEMINI_API_KEY env) None <> None.

(** With a key, one attempt is one call of [generateContent] on the
    handle of the candidate, which stays cached. *)
Lemma attempt_calls_backend (candidate : jsstring) (st : ModuleState) :
  handleNamed st ->
  attempt env backend requestPayload candidate st
  = (backend (List.length (calls st)) (handleOf candidate) requestPayload,
     boundTo candidate (calls st)).
Proof.
  intro Hwf. unfold attempt, getModel.
  destruct (orElse (GEMINI_API_KEY env) None) as [k|] eqn:Ek; [|congruence].
  unfold handleNamed in Hwf.
  destruct (model st) as [[id]|] eqn:Em.
  - destruct (modelName st) as [n|] eqn:En.
    + destruct (str_eqb n candidate) eqn:Eq; cbn.
      * assert (n = candidate).
        { clear -Eq. revert candidate Eq.
          induction n as [|x n IH]; intros [|y c] H; try discriminate; [reflexivity|].
          cbn in H. apply andb_prop in H. destruct H as [H1 H2].
          apply N.eqb_eq in H1. f_equal; auto. }
        subst n id. rewrite Em. cbn. rewrite Em, En. reflexivity.
      * reflexivity.
    + reflexivity.
  - reflexivity.
Qed.

Lemma handleNamed_reset (st : ModuleState) : handleNamed (resetModel st).
Proof. reflexivity. Qed.

Lemma handleNamed_boundTo candidate earlier : handleNamed (boundTo candidate earlier).
Proof. reflexivity. Qed.

(** A run of "not found" failures is gone through to its end: each
    candidate is called once, in order, and the handle is discarded. *)
Lemma candidateLoop_notFoundRun (fails : list (jsstring * Error)) :
  forall (rest : list jsstring) (lastError : option Error) (st : ModuleState),
    handleNamed st ->
    notFoundRun backend requestPayload (List.length (calls st)) fails ->
    candidateLoop env backend requestPayload (map fst fails ++ rest) lastError st
    = candidateLoop env backend requestPayload rest
        (match rev fails with
         | (_, err) :: _ => Some err
         | [] => lastError
         end)
        (match fails with
         | [] => st
         | _ :: _ => mkState None None (calls st ++ map handleOf (map fst fails))
         end).
Proof.
  induction fails as [|[candidate err] fails IH]; intros rest lastError st Hwf Hrun.
  - reflexivity.
  - cbn [map fst app candidateLoop].
    rewrite attempt_calls_backend by exact Hwf.
    destruct (Hrun 0%nat candidate err eq_refl) as [Hcall Hnf].
    rewrite Nat.add_0_r in Hcall. rewrite Hcall, Hnf.
    rewrite IH.
    + f_equal.
      * cbn [rev]. destruct (rev fails) as [|[c' e'] tl]; reflexivity.
      * destruct fails as [|f fails']; cbn [resetModel boundTo calls map fst].
        -- reflexivity.
        -- rewrite <- app_assoc. reflexivity.
    + apply handleNamed_reset.
    + intros i c e Hi. cbn [resetModel boundTo calls].
      rewrite length_app. cbn [List.length].
      replace (List.length (calls st) + 1 + i)%nat
        with (List.length (calls st) + S i)%nat by lia.
      apply (Hrun (S i)). exact Hi.
Qed.

End ChainFacts.

Section ChainTheorem.
Context {host : Host}.

Lemma normalizeGeminiError_classified (err : Error) :
  message (normalizeGeminiError err) = js "Gemini call failed: " ++ messageOf err /\
  (exists code, statusCode (normalizeGeminiError err) = Some code /\ (400 <= code)%Z) /\
  (exists p, publicMessage (normalizeGeminiError err) = Some p /\ p <> []).
Proof.
  unfold normalizeGeminiError, publicError. cbn [message statusCode publicMessage].
  split; [reflexivity|]. split.
  - eexists. split; [reflexivity|].
    match goal with |- context [(400 <=? ?c)%Z] => destruct (Z.leb_spec 400 c) end; lia.
  - eexists. split; [reflexivity|].
    repeat match goal with |- context [if ?b then _ else _] => destruct b end;
      discriminate.
Qed.

(** C1, as the code has it. With an API key, after any run of
    candidates that each failed with a "not found" error: the next
    candidate, when its call succeeds, gives the result of the chain (its
    text, parsed) and no later candidate is called; when it fails with
    any other error, the chain throws that error, normalized, and no
    later candidate is called; and when the run is the whole list and is
    not empty, the chain throws the last error, normalized, with an
    internal message, a status of 400 or more and a public message. Each
    candidate of the run was called exactly once, and the handle is
    discarded after each of them. *)
Theorem callGeminiJson_chain :
  forall (env : Env) (backend : Backend) (requestPayload : Request)
         (st : ModuleState) (fails : list (jsstring * Error)),
    orElse (GEMINI_API_KEY env) None <> None ->
    handleNamed st ->
    notFoundRun backend requestPayload (List.length (calls st)) fails ->
    let tried := map fst fails in
    let n := (List.length (calls st) + List.length fails)%nat in
    let earlier := calls st ++ map handleOf tried in
    (forall candidate later result,
       backend n (handleOf candidate) requestPayload = Ok result ->
       callGeminiJson env backend requestPayload (tried ++ candidate :: later) st
       = (match responseText (Some result) with
          | Ok text => parseJsonFromText text
          | Throw e => Throw e
          end,
          boundTo candidate earlier))
    /\
    (forall candidate later err,
       backend n (handleOf candidate) requestPayload = Throw err ->
       isModelNotFoundError err = false ->
       callGeminiJson env backend requestPayload (tried ++ candidate :: later) st
       = (Throw (normalizeGeminiError err), boundTo candidate earlier))
    /\
    (forall before candidate err,
       fails = before ++ [(candidate, err)] ->
       callGeminiJson env backend requestPayload tried st
       = (Throw (normalizeGeminiError err), mkState None None earlier) /\
       message (normalizeGeminiError err) = js "Gemini call failed: " ++ messageOf err /\
       (exists code, statusCode (normalizeGeminiError err) = Some code /\ (400 <= code)%Z) /\
       (exists p, publicMessage (normalizeGeminiError err) = Some p /\ p <> [])).
Proof.
  intros env backend requestPayload st fails Hkey Hwf Hrun tried n earlier.
  subst tried n earlier.
  set (after := match fails with
                | [] => st
                | _ :: _ => mkState None None (calls st ++ map handleOf (map fst fails))
                end).
  assert (Hafter : handleNamed after /\
                   calls after = calls st ++ map handleOf (map fst fails)).
  { unfold after. destruct fails; cbn.
    - split; [exact Hwf | now rewrite app_nil_r].
    - split; reflexivity. }
  destruct Hafter as [Hwf' Hcalls].
  assert (Hn : List.length (calls after)
               = (List.length (calls st) + List.length fails)%nat).
  { rewrite Hcalls. now rewrite length_app, !length_map. }
  pose proof (fun rest =>
                @candidateLoop_notFoundRun host env backend requestPayload Hkey fails
                  rest None st Hwf Hrun) as Hloop.
  fold after in Hloop.
  split; [|split].
  - intros candidate later result Hcall. unfold callGeminiJson.
    rewrite Hloop. cbn [candidateLoop].
    rewrite attempt_calls_backend by assumption.
    rewrite Hn, Hcall, Hcalls.
    destruct (responseText (Some result)); reflexivity.
  - intros candidate later err Hcall Hother. unfold callGeminiJson.
    rewrite Hloop. cbn [candidateLoop].
    rewrite attempt_calls_backend by assumption.
    rewrite Hn, Hcall, Hother, Hcalls. reflexivity.
  - intros before candidate err Hlast.
    split; [|apply normalizeGeminiError_classified].
    unfold callGeminiJson.
    specialize (Hloop []). rewrite app_nil_r in Hloop. rewrite Hloop.
    cbn [candidateLoop].
    replace (rev fails) with ((candidate, err) :: rev before)
      by (rewrite Hlast, rev_app_distr; reflexivity).
    unfold after. rewrite Hlast. destruct before; reflexivity.
Qed.

End ChainTheorem.

Example getCandidateModels_only_commas :
  getCandidateModels (mkEnv (Some (js "test-key")) (Some (js ",")) None None None) = [].
Proof. reflexivity. Qed.

(** With no candidate at all nothing is called, and what is thrown is the
    parser's error on an empty text, which has no public message. *)
Lemma callGeminiJson_no_candidate :
  @callGeminiJson fluHost keyedEnv thirdAnswers translationRequestExample [] initialState
  = (Throw (newError (js "Gemini returned empty text")), initialState) /\
  publicMessage (newError (js "Gemini returned empty text")) = None /\
  statusCode (newError (js "Gemini returned empty text")) = None.
Proof. repeat split. Qed.

(** Candidates A, B, C: A and B fail with "not found", C answers. *)
Lemma callGeminiJson_chain_witness :
  let A := js "gemini-a" in
  let B := js "gemini-b" in
  let C := js "gemini-c" in
  @notFoundRun fluHost thirdAnswers translationRequestExample 0
    [(A, notFound404); (B, notFound404)] /\
  @callGeminiJson fluHost keyedEnv thirdAnswers translationRequestExample
    [A; B; C] initialState
  = (Ok fluObject, boundTo C [handleOf A; handleOf B]).
Proof.
  assert (Hrun : @notFoundRun fluHost thirdAnswers translationRequestExample 0
                   [(js "gemini-a", notFound404); (js "gemini-b", notFound404)]).
  { intros i c e Hi.
    destruct i as [|[|i]]; cbn in Hi; try (destruct i; discriminate Hi);
      inversion Hi; subst; split; vm_compute; reflexivity. }
  assert (Hkey : orElse (GEMINI_API_KEY keyedEnv) None <> None) by discriminate.
  destruct (@callGeminiJson_chain fluHost keyedEnv thirdAnswers translationRequestExample
              initialState _ Hkey eq_refl Hrun) as [Hsuccess _].
  exact (conj Hrun (Hsuccess (js "gemini-c") [] (Text fluText) eq_refl)).
Defined.

(** ** The response contract *)

Lemma nonEmpty_true (s : jsstring) : nonEmpty s = true <-> s <> [].
Proof. destruct s; cbn; split; congruence. Qed.

Lemma severity_check (x : number) :
  negb (Number_isInteger x) || num_lt x (num 1) || num_gt x (num 3) = false ->
  isSeverity x.
Proof.
  intro H. apply orb_false_iff in H. destruct H as [H H3].
  apply orb_false_iff in H. destruct H as [Hint H1].
  apply negb_false_iff in Hint.
  destruct x as [| |q]; try discriminate.
  cbn in Hint, H1, H3 |- *.
  apply Qeq_bool_iff in Hint.
  apply negb_false_iff, Qle_bool_iff in H1.
  apply negb_false_iff, Qle_bool_iff in H3.
  rewrite Hint in H1, H3.
  change 1%Q with (inject_Z 1) in H1. change 3%Q with (inject_Z 3) in H3.
  rewrite <- Zle_Qle in H1, H3.
  assert (C : Qfloor q = 1%Z \/ Qfloor q = 2%Z \/ Qfloor q = 3%Z) by lia.
  destruct C as [C|[C|C]]; rewrite C in Hint; auto.
Qed.

Section ContractFacts.
Context {host : Host}.

(** What a successful validation guarantees. *)
Lemma validateAndNormalize_ok (obj : json) (fallback : jsstring) (r : DiagnosisResult) :
  validateAndNormalize obj fallback = Ok r ->
  isSeverity (severity r) /\ condition r <> [] /\ reasoning r <> [] /\
  (includes SUPPORTED_LANGUAGES (languageCode r) = true \/ languageCode r = fallback).
Proof.
  unfold validateAndNormalize.
  destruct obj; try discriminate.
  destruct (ToNumber _) as [sev|e]; [|discriminate].
  destruct (nonEmpty (trimmedString _)) eqn:Ec; cbn [negb]; [|discriminate].
  destruct (nonEmpty (trimmedString (prop _ (js "reasoning")))) eqn:Er;
    cbn [negb]; [|discriminate].
  destruct (negb (Number_isInteger sev) || num_lt sev (num 1) || num_gt sev (num 3))
    eqn:Es; [discriminate|].
  destruct (includes SUPPORTED_LANGUAGES (loweredString _)) eqn:El;
    intro H; inversion H; subst; clear H; cbn;
    (split; [now apply severity_check|]);
    (split; [now apply nonEmpty_true|]);
    (split; [now apply nonEmpty_true|]); auto.
Qed.

End ContractFacts.


Section TranscribeFacts.
Context {host : Host}.
Variable env : Env.
Variable backend : Backend.

(** [transcribeSymptomsFromAudio] after a valid input and a first call
    that gave a payload: the language is resolved in three steps and the
    transcript decides between a result and a failure. *)
Lemma transcribe_after_first_call (input : value) (st st1 : ModuleState)
  (audio : InlineData) (parsed : json) :
  validateAudioInput (prop input (js "audio")) = Ok audio ->
  callGeminiJson env backend (transcribeRequest audio) (getCandidateModels env) st
  = (Ok parsed, st1) ->
  let symptomsText := trimmedString (prop (Some parsed) (js "symptomsText")) in
  let rawLang := loweredString (prop (Some parsed) (js "languageCode")) in
  let fromTranscript :=
    if includes SUPPORTED_LANGUAGES rawLang then rawLang else DEFAULT_LANGUAGE_CODE in
  let detection :=
    callGeminiJson env backend (languageDetectRequest audio) (getCandidateModels env) st1 in
  let afterDetection :=
    match fst detection with
    | Ok langParsed =>
        let languageFromAudio := loweredString (prop (Some langParsed) (js "languageCode")) in
        if includes SUPPORTED_LANGUAGES languageFromAudio
        then languageFromAudio else fromTranscript
    | Throw _ => fromTranscript
    end in
  let resolved :=
    if str_eqb afterDetection (js "en") && nonEmpty symptomsText
       && negb (str_eqb (detectLanguageFromSymptoms [symptomsText]) (js "en"))
    then detectLanguageFromSymptoms [symptomsText]
    else afterDetection in
  transcribeSymptomsFromAudio env backend input st
  = (if nonEmpty symptomsText
     then Ok (mkTranscriptionResult symptomsText resolved)
     else Throw (publicError (js "Transcription failed") 503
                   (js "Transcription service returned invalid output")),
     snd detection).
Proof.
  intros Hvalid Hfirst. cbv zeta.
  unfold transcribeSymptomsFromAudio. rewrite Hvalid.
  change (mkRequest AudioTranscribePrompt _ _ _) with (transcribeRequest audio).
  rewrite Hfirst.
  change (mkRequest AudioLanguageDetectPrompt _ _ _) with (languageDetectRequest audio).
  destruct (callGeminiJson env backend (languageDetectRequest audio)
              (getCandidateModels env) st1) as [detected st2].
  cbn [fst snd].
  assert (G : forall s, nonEmpty (detectLanguageFromSymptoms s) = true).
  { intro s. pose proof (detectLanguage_supported s) as H.
    destruct (detectLanguageFromSymptoms s); [discriminate H | reflexivity]. }
  rewrite G. cbn [andb].
  destruct (nonEmpty (trimmedString (prop (Some parsed) (js "symptomsText")))) eqn:Et;
    cbn [negb]; [|reflexivity].
  clear G. set (guess := detectLanguageFromSymptoms _).
  match goal with
  | |- context [str_eqb ?a (js "en") && true] => set (L := a)
  end.
  destruct (str_eqb L (js "en")), (str_eqb guess (js "en")); reflexivity.
Qed.

End TranscribeFacts.




(** ** The diagnosis pipeline *)

Section DiagnosisFacts.
Context {host : Host}.
Variable env : Env.
Variable backend : Backend.

Lemma requestedLanguageCodeOf_supported (input : value) (r : jsstring) :
  requestedLanguageCodeOf input = Some r -> includes SUPPORTED_LANGUAGES r = true.
Proof.
  unfold requestedLanguageCodeOf.
  destruct (asString _) as [s|]; [|discriminate].
  destruct (nonEmpty (trim s)); [|discriminate].
  destruct (nonEmpty (toLowerCase (trim s))); cbn [andb]; [|discriminate].
  destruct (includes SUPPORTED_LANGUAGES (toLowerCase (trim s))) eqn:E; [|discriminate].
  intro H. inversion H; subst. exact E.
Qed.

(** Translation keeps the invariant: it either hands back the diagnosis
    it was given or replaces the two texts by non-empty ones. *)
Lemma translateDiagnosisFields_valid (d r : DiagnosisResult) (target : jsstring)
  (st st' : ModuleState) :
  validDiagnosis d -> languageCode d = target ->
  translateDiagnosisFields env backend d target st = (Ok r, st') ->
  validDiagnosis r.
Proof.
  intros (Hs & Hc & Hr & Hl) Htarget. unfold translateDiagnosisFields.
  destruct (_ || str_eqb target (js "en")).
  - intro H. inversion H; subst. repeat split; assumption.
  - destruct (callGeminiJson _ _ _ _ _) as [[parsed|e] st1]; [|discriminate].
    destruct (nonEmpty (trimmedString (prop (Some parsed) (js "condition")))) eqn:Ec;
      cbn [negb orb].
    + destruct (nonEmpty (trimmedString (prop (Some parsed) (js "reasoning")))) eqn:Er;
        cbn [negb]; intro H; inversion H; subst; clear H.
      * repeat split; cbn; try assumption; now apply nonEmpty_true.
      * repeat split; assumption.
    + intro H. inversion H; subst. repeat split; assumption.
Qed.

Lemma validateAndTranslate_valid (parsed : json) (requested : option jsstring)
  (fallback : jsstring) (st st' : ModuleState) (r : DiagnosisResult) :
  (forall c, requested = Some c -> includes SUPPORTED_LANGUAGES c = true) ->
  includes SUPPORTED_LANGUAGES fallback = true ->
  validateAndTranslate env backend parsed requested fallback st = (Ok r, st') ->
  validDiagnosis r.
Proof.
  intros Hreq Hfb. unfold validateAndTranslate.
  destruct (validateAndNormalize parsed fallback) as [n|e] eqn:Ev; [|discriminate].
  destruct (validateAndNormalize_ok _ _ Ev) as (Hs & Hc & Hr & Hl).
  match goal with
  | |- context [translateDiagnosisFields env backend ?d ?t st] =>
      destruct (translateDiagnosisFields env backend d t st) as [[res|e] st2] eqn:Et;
      [|discriminate];
      intro H; inversion H; subst; clear H;
      apply (@translateDiagnosisFields_valid d r t st st'); [|reflexivity|exact Et]
  end.
  repeat split; cbn; try assumption.
  destruct requested as [c|]; [now apply Hreq|].
  destruct (nonEmpty (languageCode n)); [|exact Hfb].
  destruct Hl as [Hl|Hl]; [exact Hl | now rewrite Hl].
Qed.

End DiagnosisFacts.

(** C5. Every [DiagnosisResult] that [generateDiagnosis] returns, after
    the translation step or without it, has a severity among 1, 2, 3, a
    non-empty condition, a non-empty reasoning and a supported language
    code. *)
Theorem generateDiagnosis_result_valid :
  forall (host : Host) (env : Env) (backend : Backend) (input : value)
         (st st' : ModuleState) (result : DiagnosisResult),
    generateDiagnosis env backend input st = (Ok result, st') ->
    validDiagnosis result.
Proof.
  intros host env backend input st st' result. unfold generateDiagnosis.
  destruct (symptomsOf _) as [symptoms|]; [|discriminate].
  match goal with
  | |- context [match ?m with Some attachment => _ | None => _ end = _] =>
      destruct m as [attachment|]
  end; [|discriminate].
  assert (Hfb : includes SUPPORTED_LANGUAGES
                  match requestedLanguageCodeOf input with
                  | Some r => r
                  | None => detectLanguageFromSymptoms symptoms
                  end = true).
  { destruct (requestedLanguageCodeOf input) eqn:E.
    - now apply requestedLanguageCodeOf_supported in E.
    - apply detectLanguage_supported. }
  pose proof (@requestedLanguageCodeOf_supported host input) as Hreq.
  destruct symptoms as [|s symptoms]; destruct attachment as [att|]; try discriminate;
    (destruct (callGeminiJson _ _ _ _ _) as [[parsed|err] st1];
     [ intro H; exact (validateAndTranslate_valid _ _ _ _ _ Hreq Hfb H)
     | try destruct (str_includes _ _); discriminate ]).
Qed.

Lemma generateDiagnosis_result_valid_witness :
  @generateDiagnosis clinicHost keyedEnv (answersOnce fluText) feverInput initialState
  = (Ok (mkDiagnosisResult (js "flu") (num 2) (js "fever") (js "en")),
     boundTo (js "gemini-2.5-flash") []) /\
  validDiagnosis (mkDiagnosisResult (js "flu") (num 2) (js "fever") (js "en")).
Proof.
  assert (H : @generateDiagnosis clinicHost keyedEnv (answersOnce fluText) feverInput
                initialState
              = (Ok (mkDiagnosisResult (js "flu") (num 2) (js "fever") (js "en")),
                 boundTo (js "gemini-2.5-flash") []))
    by (vm_compute; reflexivity).
  exact (conj H (@generateDiagnosis_result_valid clinicHost _ _ _ _ _ _ H)).
Defined.

(** C2 on the code. The caller asks for Spanish; the diagnosis call
    answers with a valid payload. When the translation call then throws,
    the whole request fails with a 503 error; when the translation call
    answers with empty fields, the untranslated diagnosis is returned. *)
Theorem generateDiagnosis_translation_failure :
  fst (@generateDiagnosis clinicHost keyedEnv (answersOnce fluText) fiebreInput initialState)
  = Throw (publicError (js "Gemini call failed: fetch failed: 503 Service Unavailable") 503
             (js "Diagnosis service returned an invalid response"))
  /\
  fst (@generateDiagnosis clinicHost keyedEnv (answersTwice fluText emptyObjectText)
         fiebreInput initialState)
  = Ok (mkDiagnosisResult (js "flu") (num 2) (js "fever") (js "es")).
Proof. split; vm_compute; reflexivity. Qed.

Section TranslationFacts.
Context {host : Host}.
Variable env : Env.
Variable backend : Backend.

(** Whenever the translation call throws, [generateDiagnosis]'s second
    [try] block turns that into a failure of the request. *)
Lemma validateAndTranslate_translation_throws (parsed : json)
  (requested : option jsstring) (fallback : jsstring) (st st2 : ModuleState)
  (n : DiagnosisResult) (e : Error) :
  validateAndNormalize parsed fallback = Ok n ->
  let target :=
    match requested with
    | Some r => r
    | None => if nonEmpty (languageCode n) then languageCode n else fallback
    end in
  target <> [] -> str_eqb target (js "en") = false ->
  callGeminiJson env backend
    (mkRequest (TranslationPrompt (condition n) (reasoning n) target) None (1 # 10)
       (js "application/json"))
    (getCandidateModels env) st = (Throw e, st2) ->
  validateAndTranslate env backend parsed requested fallback st
  = (Throw (invalidResponse e (js "Diagnosis service returned an invalid response")), st2).
Proof.
  intros Hv target Hne Hen Hcall.
  unfold validateAndTranslate. rewrite Hv. fold target.
  unfold translateDiagnosisFields.
  apply nonEmpty_true in Hne. rewrite Hne, Hen. cbn [negb orb condition reasoning].
  rewrite Hcall. reflexivity.
Qed.

End TranslationFacts.

(** ** The language of a transcript *)

(** A transcript in Telugu script does not always get ['te']: a supported
    code other than ['en'] that the transcription call or the detection
    call gave is kept, since the script of the transcript is only asked
    when the code is still ['en']. *)
Lemma transcribe_telugu_script_not_consulted :
  detectLanguageFromSymptoms [teluguFever] = js "te" /\
  fst (@transcribeSymptomsFromAudio teluguHost keyedEnv (answersOnce teluguEsText)
         audioInput initialState)
  = Ok (mkTranscriptionResult teluguFever (js "es")) /\
  fst (@transcribeSymptomsFromAudio teluguHost keyedEnv
         (answersTwice transcriptText hindiCodeText) audioInput initialState)
  = Ok (mkTranscriptionResult teluguFever (js "hi")).
Proof. repeat split; vm_compute; reflexivity. Qed.

(** C6, as the code has it. After a valid audio input and a
    transcription call that gave a non-empty transcript,
    [transcribeSymptomsFromAudio] succeeds and its language code is
    resolved as follows. The code of a payload is its [languageCode]
    field, trimmed and lower-cased, when that is a string and a supported
    code. The transcription payload gives the first code, ['en'] when it
    has none; the payload of the dedicated detection call overrides it
    whenever that call succeeds and has a code, and the first code is
    kept when that call throws or has none. If what results is ['en'],
    the script of the transcript decides; any other code is returned as
    it is. So a transcript in Telugu script gets ['te'] when the two
    calls left ['en'] or ['te'], and only then. *)
Theorem transcribe_language_resolution :
  forall (host : Host) (env : Env) (backend : Backend) (input : value)
         (st st1 : ModuleState) (audio : InlineData) (parsed : json),
    validateAudioInput (prop input (js "audio")) = Ok audio ->
    callGeminiJson env backend (transcribeRequest audio) (getCandidateModels env) st
    = (Ok parsed, st1) ->
    let text := trimmedString (prop (Some parsed) (js "symptomsText")) in
    text <> [] ->
    let codeOf := fun (payload : json) (otherwise : jsstring) =>
      match prop (Some payload) (js "languageCode") with
      | Some (JStr s) =>
          if includes SUPPORTED_LANGUAGES (toLowerCase (trim s))
          then toLowerCase (trim s) else otherwise
      | _ => otherwise
      end in
    let fromTranscript := codeOf parsed (js "en") in
    let detection :=
      fst (callGeminiJson env backend (languageDetectRequest audio)
             (getCandidateModels env) st1) in
    let afterDetection :=
      match detection with
      | Ok langParsed => codeOf langParsed fromTranscript
      | Throw _ => fromTranscript
      end in
    exists result,
      fst (transcribeSymptomsFromAudio env backend input st) = Ok result /\
      symptomsText result = text /\
      (afterDetection = js "en" ->
       transcriptLanguageCode result = detectLanguageFromSymptoms [text]) /\
      (afterDetection <> js "en" -> transcriptLanguageCode result = afterDetection) /\
      (forall langParsed s,
         detection = Ok langParsed ->
         prop (Some langParsed) (js "languageCode") = Some (JStr s) ->
         includes SUPPORTED_LANGUAGES (toLowerCase (trim s)) = true ->
         afterDetection = toLowerCase (trim s)) /\
      (forall e, detection = Throw e -> afterDetection = fromTranscript) /\
      (detectLanguageFromSymptoms [text] = js "te" ->
       (transcriptLanguageCode result = js "te" <->
        afterDetection = js "en" \/ afterDetection = js "te")).
Proof.
  intros host env backend input st st1 audio parsed Hvalid Hfirst text Htext
         codeOf fromTranscript detection afterDetection.
  rewrite (@transcribe_after_first_call host env backend input st st1 audio parsed
             Hvalid Hfirst).
  fold text. fold detection.
  apply nonEmpty_true in Htext. rewrite Htext. cbn [fst andb].
  eexists. split; [reflexivity|]. cbn [symptomsText transcriptLanguageCode].
  split; [reflexivity|].
  assert (C : forall payload otherwise,
            (if includes SUPPORTED_LANGUAGES
                  (loweredString (prop (Some payload) (js "languageCode")))
             then loweredString (prop (Some payload) (js "languageCode"))
             else otherwise)
            = codeOf payload otherwise).
  { intros payload otherwise. unfold codeOf, loweredString, asString.
    destruct (prop (Some payload) (js "languageCode")) as [[| | |s| |]|]; reflexivity. }
  assert (A : match detection with
              | Ok langParsed =>
                  if includes SUPPORTED_LANGUAGES
                       (loweredString (prop (Some langParsed) (js "languageCode")))
                  then loweredString (prop (Some langParsed) (js "languageCode"))
                  else if includes SUPPORTED_LANGUAGES
                            (loweredString (prop (Some parsed) (js "languageCode")))
                       then loweredString (prop (Some parsed) (js "languageCode"))
                       else DEFAULT_LANGUAGE_CODE
              | Throw _ =>
                  if includes SUPPORTED_LANGUAGES
                       (loweredString (prop (Some parsed) (js "languageCode")))
                  then loweredString (prop (Some parsed) (js "languageCode"))
                  else DEFAULT_LANGUAGE_CODE
              end = afterDetection).
  { unfold afterDetection, fromTranscript. change DEFAULT_LANGUAGE_CODE with (js "en").
    destruct detection as [lp|e]; rewrite ?C; reflexivity. }
  rewrite A. clear A C.
  assert (Hen : forall a, str_eqb a (js "en") = true <-> a = js "en")
    by (intro a; apply str_eqb_eq).
  split; [|split; [|split; [|split]]].
  - intros ->. cbn [str_eqb andb].
    change (str_eqb (js "en") (js "en")) with true. cbn [andb].
    destruct (str_eqb (detectLanguageFromSymptoms [text]) (js "en")) eqn:E;
      cbn [negb]; [|reflexivity].
    apply Hen in E. now rewrite E.
  - intro Hne. destruct (str_eqb afterDetection (js "en")) eqn:E; [|reflexivity].
    apply Hen in E. contradiction.
  - intros lp s Hd Hp Hs. unfold afterDetection, codeOf. rewrite Hd, Hp, Hs. reflexivity.
  - intros e Hd. unfold afterDetection. rewrite Hd. reflexivity.
  - intro Hte. rewrite Hte. change (str_eqb (js "te") (js "en")) with false.
    cbn [negb]. rewrite !andb_true_r.
    destruct (str_eqb afterDetection (js "en")) eqn:E.
    + apply Hen in E. split; [now left | reflexivity].
    + split; [now right|]. intros [H|H]; [|exact H].
      apply Hen in H. congruence.
Qed.

(** Two runs. The transcription call gives a Telugu transcript with the
    code ['es'] and the detection call answers " HI ": the detection
    code wins. The transcription call gives a Telugu transcript and no
    code, and the detection call fails: the script decides. *)
Lemma transcribe_language_resolution_witness :
  fst (@transcribeSymptomsFromAudio teluguHost keyedEnv
         (answersTwice teluguEsText hindiCodeText) audioInput initialState)
  = Ok (mkTranscriptionResult teluguFever (js "hi")) /\
  fst (@transcribeSymptomsFromAudio clinicHost keyedEnv (answersOnce transcriptText)
         audioInput initialState)
  = Ok (mkTranscriptionResult teluguFever (js "te")).
Proof.
  split.
  - destruct (@transcribe_language_resolution teluguHost keyedEnv
                (answersTwice teluguEsText hindiCodeText) audioInput initialState _
                audioClip teluguEsObject eq_refl eq_refl ltac:(discriminate))
      as (result & Hok & Htext & _ & Hother & Hover & _ & _).
    rewrite Hok. f_equal.
    destruct result as [t l]. cbn [symptomsText transcriptLanguageCode] in *.
    rewrite Htext. f_equal.
    rewrite Hother; rewrite (Hover hindiCodeObject (js " HI ") eq_refl eq_refl eq_refl);
      [reflexivity | discriminate].
  - destruct (@transcribe_language_resolution clinicHost keyedEnv
                (answersOnce transcriptText) audioInput initialState _ audioClip
                transcriptObject eq_refl eq_refl ltac:(discriminate))
      as (result & Hok & Htext & _ & _ & _ & Hkept & Htelugu).
    rewrite Hok. f_equal.
    destruct result as [t l]. cbn [symptomsText transcriptLanguageCode] in *.
    rewrite Htext. f_equal.
    apply Htelugu; [reflexivity|].
    left. exact (Hkept _ eq_refl).
Defined.

(* ================================================================== *)
(** * Part III. Further properties of the services *)
(* ================================================================== *)

(** ** waittimeService.js *)





(** A facility without a name whose scrape gives nothing makes the whole
    batch fail: the fallback reads [length] of [undefined] outside the
    [try], and [Promise.all] rejects. *)
Theorem getWaitTimes_nameless_rejects :
  forall scrape clock (before after : list Hospital) (h : Hospital),
    hospital_name h = None ->
    (forall minutes,
       scrape (List.length before) None (websiteOrNull h) <> Ok (Some minutes)) ->
    exists e, getWaitTimes scrape clock (before ++ h :: after) = Throw e.
Proof.
  intros scrape clock before after h Hname Hscrape. unfold getWaitTimes.
  assert (G : forall i0,
            (forall minutes, scrape (i0 + List.length before)%nat None (websiteOrNull h)
                             <> Ok (Some minutes)) ->
            exists e,
              Promise_all
                (mapi_from i0
                   (fun i hospital =>
                      resolveHospital
                        (scrape i (hospital_name hospital) (websiteOrNull hospital))
                        (clock i) hospital)
                   (before ++ h :: after)) = Throw e).
  { clear Hscrape.
    induction before as [|b before IH]; intros i0 Hs; cbn [app mapi_from Promise_all].
    - cbn [List.length] in Hs. rewrite Nat.add_0_r in Hs.
      unfold resolveHospital at 1. rewrite Hname.
      destruct (scrape i0 None (websiteOrNull h)) as [[minutes|]|e].
      + exfalso. exact (Hs minutes eq_refl).
      + cbn. eauto.
      + cbn. eauto.
    - destruct (resolveHospital _ _ b) as [r|e]; [|eauto].
      destruct (IH (S i0)) as [e He].
      + intros minutes. replace (S i0 + List.length before)%nat
          with (i0 + List.length (b :: before))%nat by (cbn; lia). apply Hs.
      + rewrite He. eauto. }
  apply G. exact Hscrape.
Qed.

Lemma getWaitTimes_nameless_rejects_witness :
  exists e,
    getWaitTimes (fun _ _ _ => Ok None) (fun _ => mkDate 36000000 0)
      ([mkHospital (Some (js "General Hospital")) None []]
         ++ mkHospital None None [] :: []) = Throw e.
Proof.
  apply getWaitTimes_nameless_rejects; [reflexivity | discriminate].
Defined.

(** ** scraperService.js: normalized names and scores *)

Lemma isLowerAlnum_not_space (c : N) : isLowerAlnum c = true -> isWhiteSpace c = false.
Proof.
  unfold isLowerAlnum. intro H.
  assert (R : (48 <= c <= 122)%N).
  { apply orb_prop in H. destruct H as [H|H]; apply andb_prop in H;
      destruct H as [H1 H2]; apply N.leb_le in H1, H2; lia. }
  clear H. unfold isWhiteSpace.
  repeat match goal with
         | |- context [(?a <=? ?b)%N] => destruct (N.leb_spec a b); try (exfalso; lia)
         | |- context [(?a =? ?b)%N] => destruct (N.eqb_spec a b); try (exfalso; lia)
         end.
  reflexivity.
Qed.

Lemma collapseSpaces_cons (c : N) (s : jsstring) :
  collapseSpaces (c :: s)
  = if isWhiteSpace c then
      match s with
      | d :: _ => if isWhiteSpace d then collapseSpaces s else 32%N :: collapseSpaces s
      | [] => [32%N]
      end
    else c :: collapseSpaces s.
Proof. destruct s; reflexivity. Qed.

Lemma collapseSpaces_head (s : jsstring) (c : N) :
  hd 0%N (collapseSpaces (c :: s)) = if isWhiteSpace c then 32%N else c.
Proof.
  revert c. induction s as [|d s IH]; intro c; rewrite collapseSpaces_cons.
  - destruct (isWhiteSpace c); reflexivity.
  - destruct (isWhiteSpace c) eqn:Ec; [|reflexivity].
    destruct (isWhiteSpace d) eqn:Ed; [|reflexivity].
    rewrite IH, Ed. reflexivity.
Qed.

Lemma collapseSpaces_chars (s : jsstring) :
  forallb isNameChar s = true ->
  forallb (fun c => isLowerAlnum c || (c =? 32)%N) (collapseSpaces s) = true.
Proof.
  induction s as [|c s IH]; [reflexivity|].
  intro H. cbn [forallb] in H. apply andb_prop in H. destruct H as [Hc Hs].
  specialize (IH Hs). rewrite collapseSpaces_cons.
  destruct (isWhiteSpace c) eqn:Ec.
  - destruct s as [|d s']; [reflexivity|].
    destruct (isWhiteSpace d); [exact IH|]. cbn [forallb]. rewrite IH.
    now rewrite orb_true_r.
  - cbn [forallb]. rewrite IH, andb_true_r.
    unfold isNameChar in Hc. rewrite Ec, orb_false_r in Hc.
    unfold isLowerAlnum. now rewrite Hc.
Qed.

Lemma singleSpaced_cons (c d : N) (rest : jsstring) :
  singleSpaced (c :: d :: rest)
  = negb ((c =? 32) && (d =? 32))%N && singleSpaced (d :: rest).
Proof. reflexivity. Qed.

Lemma collapseSpaces_singleSpaced (s : jsstring) :
  singleSpaced (collapseSpaces s) = true.
Proof.
  induction s as [|c s IH]; [reflexivity|].
  rewrite collapseSpaces_cons.
  destruct (isWhiteSpace c) eqn:Ec.
  - destruct s as [|d s']; [reflexivity|].
    destruct (isWhiteSpace d) eqn:Ed; [exact IH|].
    pose proof (collapseSpaces_head s' d) as Hh. rewrite Ed in Hh.
    destruct (collapseSpaces (d :: s')) as [|x rest] eqn:Er; [reflexivity|].
    cbn [hd] in Hh. subst x. rewrite singleSpaced_cons, IH, andb_true_r.
    destruct (N.eqb_spec d 32); [subst d; discriminate Ed|].
    now rewrite andb_false_r.
  - destruct (collapseSpaces s) as [|x rest] eqn:Er; [reflexivity|].
    rewrite singleSpaced_cons, IH, andb_true_r.
    destruct (N.eqb_spec c 32); [subst c; discriminate Ec|]. reflexivity.
Qed.

Lemma trimStart_suffix (s : jsstring) : exists ws, s = ws ++ trimStart s.
Proof.
  induction s as [|c s [ws IH]]; [exists []; reflexivity|]. cbn.
  destruct (isWhiteSpace c).
  - exists (c :: ws). cbn. now rewrite <- IH.
  - exists []. reflexivity.
Qed.

Lemma trimEnd_prefix (s : jsstring) : exists ws, s = trimEnd s ++ ws.
Proof.
  unfold trimEnd. destruct (trimStart_suffix (rev s)) as [ws H].
  exists (rev ws). rewrite <- rev_app_distr, <- H. now rewrite rev_involutive.
Qed.

Lemma singleSpaced_app_r (a b : jsstring) : singleSpaced (a ++ b) = true -> singleSpaced b = true.
Proof.
  induction a as [|c a IH]; [auto|].
  cbn [app]. intro H. apply IH.
  destruct (a ++ b); [reflexivity|].
  rewrite singleSpaced_cons in H. apply andb_prop in H. tauto.
Qed.

Lemma singleSpaced_app_l (a b : jsstring) : singleSpaced (a ++ b) = true -> singleSpaced a = true.
Proof.
  induction a as [|c a IH]; [auto|].
  cbn [app]. destruct a as [|d a']; [reflexivity|].
  cbn [app] in *. rewrite !singleSpaced_cons. intro H.
  apply andb_prop in H. destruct H as [H1 H2].
  rewrite H1. cbn [andb]. apply IH. exact H2.
Qed.

Lemma trimStart_head (s : jsstring) : isWhiteSpace (hd 0%N (trimStart s)) = false.
Proof.
  induction s as [|c s IH]; [reflexivity|]. cbn.
  destruct (isWhiteSpace c) eqn:Ec; [exact IH | exact Ec].
Qed.

Lemma hd_rev_last (s : jsstring) : hd 0%N (rev s) = last s 0%N.
Proof.
  induction s as [|c s IH]; [reflexivity|].
  cbn [rev]. destruct s as [|d s']; [reflexivity|].
  change (last (c :: d :: s') 0%N) with (last (d :: s') 0%N). rewrite <- IH.
  destruct (rev (d :: s')) eqn:E; [|reflexivity].
  apply (f_equal (@List.length N)) in E. rewrite length_rev in E. discriminate E.
Qed.

Lemma trimEnd_last (s : jsstring) : isWhiteSpace (last (trimEnd s) 0%N) = false.
Proof.
  unfold trimEnd. rewrite <- hd_rev_last, rev_involutive. apply trimStart_head.
Qed.

Lemma trimEnd_head (s : jsstring) :
  isWhiteSpace (hd 0%N s) = false -> isWhiteSpace (hd 0%N (trimEnd s)) = false.
Proof.
  intro H. destruct (trimEnd_prefix s) as [ws E].
  destruct (trimEnd s) as [|c t]; [reflexivity|].
  rewrite E in H. exact H.
Qed.

(** Whatever the name and whatever the host's lower-casing does, a
    normalized name is made of [a-z], digits and single spaces, and has
    no space at either end: the keys of the scraped map and the queried
    name are compared in that one shape. *)
Theorem normalizeName_shape :
  forall (host : Host) (name : jsstring), isNormalizedName (normalizeName name).
Proof.
  intros host name. unfold normalizeName, trim.
  set (x := collapseSpaces (filter isNameChar (toLowerCase name))).
  assert (Hchars : forallb (fun c => isLowerAlnum c || (c =? 32)%N) x = true).
  { apply collapseSpaces_chars. apply forallb_forall.
    intros c Hc. now apply filter_In in Hc. }
  assert (Hss : singleSpaced x = true) by apply collapseSpaces_singleSpaced.
  repeat split.
  - now apply trimEnd_forallb, trimStart_forallb.
  - destruct (trimStart_suffix x) as [ws E]. rewrite E in Hss.
    apply singleSpaced_app_r in Hss.
    destruct (trimEnd_prefix (trimStart x)) as [ws' E']. rewrite E' in Hss.
    now apply singleSpaced_app_l in Hss.
  - pose proof (trimEnd_head _ (trimStart_head x)) as H.
    intro E. rewrite E in H. discriminate H.
  - pose proof (trimEnd_last (trimStart x)) as H.
    intro E. rewrite E in H. discriminate H.
Qed.

Lemma longWords_NoDup (s : jsstring) : NoDup (longWords s).
Proof. apply Set_of_spec. Qed.

Lemma overlap_symmetric (A B : list jsstring) :
  NoDup A -> NoDup B ->
  List.length (filter (includes B) A) = List.length (filter (includes A) B).
Proof.
  intros HA HB. apply Permutation_length. apply NoDup_Permutation.
  - now apply NoDup_filter.
  - now apply NoDup_filter.
  - intro w. rewrite !filter_In, !includes_In. tauto.
Qed.

(** The overlap score is a ratio between 0 and 1 and does not depend on
    the order of its two arguments. *)
Theorem overlapScore_range_symmetric :
  forall a b : jsstring,
    (0 <= overlapScore a b)%Q /\ (overlapScore a b <= 1)%Q /\
    overlapScore a b = overlapScore b a.
Proof.
  intros a b. split; [apply overlapScore_nonneg|]. split.
  - unfold overlapScore.
    destruct (Nat.eqb (List.length (longWords a)) 0) eqn:Ea; cbn [orb];
      [unfold Qle; cbn; lia|].
    destruct (Nat.eqb (List.length (longWords b)) 0) eqn:Eb; [unfold Qle; cbn; lia|].
    apply Nat.eqb_neq in Ea.
    pose proof (filter_length_le (includes (longWords b)) (longWords a)) as Hle.
    unfold Qle. cbn [Qnum Qden]. rewrite Z.mul_1_r, Z.mul_1_l.
    rewrite <- positive_nat_Z, Nat2Pos.id by lia. lia.
  - unfold overlapScore.
    rewrite (overlap_symmetric (longWords_NoDup a) (longWords_NoDup b)).
    rewrite (Nat.max_comm (List.length (longWords a))).
    rewrite (orb_comm (Nat.eqb (List.length (longWords a)) 0)).
    reflexivity.
Qed.

(** ** llmService.js: what the chain does to the module state *)

Section ChainState.
Context {host : Host}.
Variable env : Env.
Variable backend : Backend.
Variable requestPayload : Request.

Lemma attempt_without_key (candidate : jsstring) (st : ModuleState) :
  orElse (GEMINI_API_KEY env) None = None ->
  exists st',
    attempt env backend requestPayload candidate st = (Throw missingKeyError, st') /\
    calls st' = calls st /\ (handleNamed st -> handleNamed st').
Proof.
  intro Hkey. unfold attempt, getModel. rewrite Hkey.
  eexists. split; [reflexivity|].
  destruct (model st), (modelName st); try (split; reflexivity).
  destruct (negb _); split; try reflexivity. auto.
Qed.

Lemma candidateLoop_without_key (candidateModels : list jsstring) :
  orElse (GEMINI_API_KEY env) None = None ->
  forall (lastError : option Error) (st : ModuleState),
  exists st',
    candidateLoop env backend requestPayload candidateModels lastError st
    = (None,
       match candidateModels with [] => lastError | _ :: _ => Some missingKeyError end,
       st') /\
    calls st' = calls st /\ (handleNamed st -> handleNamed st').
Proof.
  intro Hkey. induction candidateModels as [|c rest IH]; intros lastError st.
  - eexists. split; [reflexivity|]. split; auto.
  - cbn [candidateLoop].
    destruct (attempt_without_key c st Hkey) as (st1 & Ha & Hc & Hw). rewrite Ha.
    destruct (isModelNotFoundError missingKeyError).
    + destruct (IH (Some missingKeyError) (resetModel st1)) as (st2 & Hl & Hc2 & Hw2).
      rewrite Hl. exists st2. split; [destruct rest; reflexivity|]. split.
      * rewrite Hc2. cbn. exact Hc.
      * intros _. apply Hw2. reflexivity.
    + exists st1. split; [reflexivity|]. split; assumption.
Qed.

(** Without an API key the chain never reaches the service, whatever the
    candidates, and what it throws is the configuration error as
    [normalizeGeminiError] rewrites it: the status 500 and the public
    message of [getModel] are replaced by 503 and "temporarily
    unavailable". *)
Theorem callGeminiJson_without_key :
  forall (candidateModels : list jsstring) (st : ModuleState),
    orElse (GEMINI_API_KEY env) None = None ->
    candidateModels <> [] ->
    exists st',
      callGeminiJson env backend requestPayload candidateModels st
      = (Throw (normalizeGeminiError missingKeyError), st') /\
      calls st' = calls st /\
      statusCode (normalizeGeminiError missingKeyError) = Some 503%Z /\
      publicMessage (normalizeGeminiError missingKeyError)
      = Some (js "Diagnosis service temporarily unavailable").
Proof.
  intros candidateModels st Hkey Hne. unfold callGeminiJson.
  destruct (candidateLoop_without_key candidateModels Hkey None st) as (st' & Hl & Hc & _).
  rewrite Hl. destruct candidateModels; [congruence|].
  exists st'. repeat split; assumption.
Qed.

Lemma candidateLoop_with_key (candidateModels : list jsstring) :
  orElse (GEMINI_API_KEY env) None <> None ->
  forall lastError st result err st',
    handleNamed st ->
    candidateLoop env backend requestPayload candidateModels lastError st
    = (result, err, st') ->
    handleNamed st' /\
    exists k, calls st' = calls st ++ map handleOf (firstn k candidateModels).
Proof.
  intro Hkey. induction candidateModels as [|c rest IH];
    intros lastError st result err st' Hwf Hl.
  - cbn in Hl. inversion Hl; subst. split; [exact Hwf|].
    exists 0%nat. cbn. now rewrite app_nil_r.
  - cbn [candidateLoop] in Hl.
    rewrite attempt_calls_backend in Hl by assumption.
    destruct (backend _ _ _) as [r|e].
    + inversion Hl; subst. split; [reflexivity|]. exists 1%nat. reflexivity.
    + destruct (isModelNotFoundError e).
      * apply IH in Hl; [|reflexivity]. destruct Hl as [Hwf' [k Hk]].
        split; [exact Hwf'|]. exists (S k). rewrite Hk. cbn.
        now rewrite <- app_assoc.
      * inversion Hl; subst. split; [reflexivity|]. exists 1%nat. reflexivity.
Qed.

(** From a state whose two variables agree, the chain calls the service
    on the handles of the first candidates of the list, in order and at
    most once each, on nothing else, and leaves the two variables in
    agreement. *)
Theorem callGeminiJson_calls_prefix :
  forall (candidateModels : list jsstring) (st st' : ModuleState) (out : Outcome json),
    handleNamed st ->
    callGeminiJson env backend requestPayload candidateModels st = (out, st') ->
    handleNamed st' /\
    exists k, calls st' = calls st ++ map handleOf (firstn k candidateModels).
Proof.
  intros candidateModels st st' out Hwf Hcall. unfold callGeminiJson in Hcall.
  destruct (candidateLoop env backend requestPayload candidateModels None st)
    as [[result err] s'] eqn:Hl.
  assert (Hs' : st' = s').
  { destruct err; [inversion Hcall; reflexivity|].
    destruct (responseText result); inversion Hcall; reflexivity. }
  subst s'.
  destruct (orElse (GEMINI_API_KEY env) None) as [key|] eqn:Hkey.
  - apply (@candidateLoop_with_key candidateModels ltac:(congruence) _ _ _ _ _ Hwf Hl).
  - destruct (candidateLoop_without_key candidateModels Hkey None st)
      as (s2 & Hl2 & Hc2 & Hw2).
    rewrite Hl2 in Hl. inversion Hl; subst. split; [auto|].
    exists 0%nat. cbn. now rewrite app_nil_r.
Qed.

End ChainState.

Lemma callGeminiJson_without_key_witness :
  exists st',
    @callGeminiJson fluHost keylessEnv thirdAnswers translationRequestExample
      (getCandidateModels keylessEnv) initialState
    = (Throw (@normalizeGeminiError fluHost missingKeyError), st') /\
    calls st' = calls initialState /\
    statusCode (@normalizeGeminiError fluHost missingKeyError) = Some 503%Z /\
    publicMessage (@normalizeGeminiError fluHost missingKeyError)
    = Some (js "Diagnosis service temporarily unavailable").
Proof.
  apply callGeminiJson_without_key; [reflexivity | discriminate].
Defined.

Lemma callGeminiJson_calls_prefix_witness :
  handleNamed (boundTo (js "gemini-c") [handleOf (js "gemini-a"); handleOf (js "gemini-b")]) /\
  exists k,
    calls (boundTo (js "gemini-c") [handleOf (js "gemini-a"); handleOf (js "gemini-b")])
    = calls initialState
      ++ map handleOf (firstn k [js "gemini-a"; js "gemini-b"; js "gemini-c"]).
Proof.
  refine (@callGeminiJson_calls_prefix fluHost keyedEnv thirdAnswers
            translationRequestExample
            [js "gemini-a"; js "gemini-b"; js "gemini-c"] initialState _
            (Ok fluObject) eq_refl _).
  vm_compute. reflexivity.
Defined.

(** ** llmService.js: the errors of the diagnosis pipeline *)

Section DiagnosisErrors.
Context {host : Host}.
Variable env : Env.
Variable backend : Backend.

(** Whatever goes wrong in [generateDiagnosis] (the input, the chain,
    the parsing, the validation, the translation), the error it throws
    carries a status code, 400 or 503, and a public message. *)
Theorem generateDiagnosis_errors_classified :
  forall (input : value) (st st' : ModuleState) (err : Error),
    generateDiagnosis env backend input st = (Throw err, st') ->
    (statusCode err = Some 400%Z \/ statusCode err = Some 503%Z) /\
    exists p, publicMessage err = Some p /\ p <> [].
Proof.
  intros input st st' err. unfold generateDiagnosis.
  assert (V : forall parsed req fb s,
            validateAndTranslate env backend parsed req fb s = (Throw err, st') ->
            (statusCode err = Some 400%Z \/ statusCode err = Some 503%Z) /\
            exists p, publicMessage err = Some p /\ p <> []).
  { intros parsed req fb s. unfold validateAndTranslate.
    destruct (validateAndNormalize parsed fb) as [n|e].
    - destruct (translateDiagnosisFields _ _ _ _ _) as [[r|e] s2]; [discriminate|].
      intro H. inversion H; subst. split; [right; reflexivity|].
      eexists. split; [reflexivity | discriminate].
    - intro H. inversion H; subst. split; [right; reflexivity|].
      eexists. split; [reflexivity | discriminate]. }
  destruct (symptomsOf _) as [symptoms|].
  2:{ intro H. inversion H; subst. split; [left; reflexivity|].
      eexists. split; [reflexivity | discriminate]. }
  match goal with
  | |- context [match ?m with Some attachment => _ | None => _ end = _] =>
      destruct m as [attachment|]
  end.
  2:{ intro H. inversion H; subst. split; [left; reflexivity|].
      eexists. split; [reflexivity | discriminate]. }
  destruct symptoms as [|s symptoms]; destruct attachment as [att|];
    try (intro H; inversion H; subst; split; [left; reflexivity|];
         eexists; split; [reflexivity | discriminate]);
    (destruct (callGeminiJson _ _ _ _ _) as [[parsed|e] st1]; [apply V|]);
    try destruct (str_includes _ _);
    intro H; inversion H; subst;
    (split; [(left; reflexivity) || (right; reflexivity)|]);
    eexists; (split; [reflexivity | discriminate]).
Qed.

End DiagnosisErrors.

Lemma generateDiagnosis_errors_classified_witness :
  (statusCode (publicError (js "Invalid symptoms input") 400 (js "Invalid symptoms input"))
   = Some 400%Z \/
   statusCode (publicError (js "Invalid symptoms input") 400 (js "Invalid symptoms input"))
   = Some 503%Z) /\
  exists p,
    publicMessage (publicError (js "Invalid symptoms input") 400 (js "Invalid symptoms input"))
    = Some p /\ p <> [].
Proof.
  refine (@generateDiagnosis_errors_classified clinicHost keyedEnv (answersOnce fluText)
            (Some (JObj [(js "symptoms", JStr (js "fever"))])) initialState initialState
            _ _).
  reflexivity.
Defined.

(** ** llmService.js: the candidate lists and the image attachment *)

Lemma trimStart_fixed (s : jsstring) :
  isWhiteSpace (hd 0%N s) = false -> trimStart s = s.
Proof. destruct s as [|c s]; cbn; [reflexivity|]. now intros ->. Qed.

Lemma trim_idempotent (s : jsstring) : trim (trim s) = trim s.
Proof.
  assert (Hh : isWhiteSpace (hd 0%N (trim s)) = false)
    by (apply trimEnd_head, trimStart_head).
  assert (Hl : isWhiteSpace (last (trim s) 0%N) = false) by apply trimEnd_last.
  unfold trim at 1. rewrite (trimStart_fixed _ Hh).
  unfold trimEnd at 1. rewrite trimStart_fixed.
  - apply rev_involutive.
  - now rewrite hd_rev_last.
Qed.

(** Every configured candidate is a non-empty, trimmed identifier; the
    defaults are used exactly when the variable is unset or blank, and
    [GEMINI_MODEL] hides [GEMINI_MODELS] as soon as it is not empty. *)
Theorem getCandidateModels_entries :
  forall env : Env,
    (forall c, In c (getCandidateModels env) -> c <> [] /\ trim c = c) /\
    (forall m, GEMINI_MODEL env = Some m -> m <> [] ->
       getCandidateModels env = configuredModels (Some m) (getCandidateModels keylessEnv)) /\
    (orElse (GEMINI_MODEL env) (GEMINI_MODELS env) = None ->
     getCandidateModels env = getCandidateModels keylessEnv) /\
    (forall c, orElse (GEMINI_MODEL env) (GEMINI_MODELS env) = Some c -> trim c = [] ->
       getCandidateModels env = getCandidateModels keylessEnv).
Proof.
  intro env. unfold getCandidateModels. split; [|split; [|split]].
  - intro c. unfold configuredModels.
    assert (D : In c (map js ["gemini-2.5-flash"; "gemini-2.0-flash";
                              "gemini-flash-latest"]%string) ->
                c <> [] /\ trim c = c).
    { cbn. intros [<-|[<-|[<-|[]]]]; split; (discriminate || reflexivity). }
    destruct (orElse _ _) as [conf|]; [|exact D].
    destruct (nonEmpty conf && nonEmpty (trim conf)); [|exact D].
    intro H. apply filter_In in H. destruct H as [H Hne].
    apply in_map_iff in H. destruct H as (x & <- & _).
    split; [now apply nonEmpty_true | apply trim_idempotent].
  - intros m Hm Hne. rewrite Hm. cbn [orElse].
    apply nonEmpty_true in Hne. rewrite Hne. reflexivity.
  - intros ->. reflexivity.
  - intros c -> Ht. unfold configuredModels. rewrite Ht. cbn [nonEmpty].
    now rewrite andb_false_r.
Qed.

Lemma startsWith_app (p s : jsstring) : startsWith p (p ++ s) = true.
Proof. induction p as [|c p IH]; cbn; [reflexivity|]. now rewrite N.eqb_refl. Qed.

Lemma skipn_length_app (p s : jsstring) : skipn (List.length p) (p ++ s) = s.
Proof. induction p; cbn; auto. Qed.

Lemma firstn_length_app (p s : jsstring) : firstn (List.length p) (p ++ s) = p.
Proof. induction p; cbn; congruence. Qed.

(** A data URL in [image.data]: the scheme prefix is stripped and the
    MIME type it embeds replaces the declared one. *)
Theorem normalizeImage_data_url :
  forall (host : Host) (declared mime payload : jsstring) (final : N),
    mime <> [] ->
    forallb (fun c => negb (c =? 59)%N) mime = true ->
    forallb (fun c => negb (isLineTerminator c)) (payload ++ [final]) = true ->
    isWhiteSpace final = false ->
    normalizeImage
      (mkInlineData declared (js "data:" ++ mime ++ js ";base64," ++ payload ++ [final]))
    = mkInlineData (toLowerCase (trim mime)) (payload ++ [final]).
Proof.
  intros host declared mime payload final Hmime Hsemi Hlt Hfinal.
  unfold normalizeImage. cbn [data mimeType].
  assert (Htrim : trim (js "data:" ++ mime ++ js ";base64," ++ payload ++ [final])
                  = js "data:" ++ mime ++ js ";base64," ++ payload ++ [final]).
  { pose proof (@trim_around [] 100%N
                  (js "ata:" ++ mime ++ js ";base64," ++ payload) final []
                  eq_refl Hfinal) as H.
    cbn [app] in H. rewrite !app_nil_r in H.
    cbn [js list_ascii_of_string map app] in H |- *.
    rewrite <- !app_assoc in H. cbn [app] in H.
    cbn [trimStart trimEnd rev] in H. exact H. }
  rewrite Htrim. unfold matchDataUrl.
  rewrite startsWith_app.
  change 5%nat with (List.length (js "data:")).
  rewrite (@skipn_length_app (js "data:")).
  change (js ";base64," ++ payload ++ [final])
    with (59%N :: js "base64," ++ payload ++ [final]).
  rewrite indexOf_app by exact Hsemi.
  rewrite (@firstn_length_app mime), (@skipn_length_app mime).
  change (59%N :: js "base64," ++ payload ++ [final])
    with (js ";base64," ++ payload ++ [final]).
  rewrite startsWith_app.
  change (S (S (S (List.length (js "data:"))))) with (List.length (js ";base64,")).
  rewrite (@skipn_length_app (js ";base64,")).
  apply nonEmpty_true in Hmime. rewrite Hmime, Hlt.
  destruct payload; reflexivity.
Qed.

Lemma normalizeImage_data_url_witness :
  @normalizeImage latinHost
    (mkInlineData (js "image/jpeg") (js "data:" ++ js "image/PNG" ++ js ";base64," ++ js "iVBORw0KGg" ++ [61%N]))
  = mkInlineData (js "image/png") (js "iVBORw0KGg" ++ [61%N]).
Proof.
  exact (@normalizeImage_data_url latinHost (js "image/jpeg") (js "image/PNG")
           (js "iVBORw0KGg") 61%N ltac:(discriminate) eq_refl eq_refl eq_refl).
Defined.

(** ** scraperService.js: the page cache *)

Lemma lookup_Map_set {A} (k : jsstring) (v : A) (m : list (jsstring * A)) :
  lookup k (Map_set k v m) = Some v.
Proof.
  induction m as [|[k' v'] m IH]; cbn.
  - now rewrite str_eqb_refl.
  - destruct (str_eqb k k') eqn:E; cbn.
    + now rewrite str_eqb_refl.
    + now rewrite E.
Qed.




Section CacheFacts.
Variable D : Type.
Variable fetch : Fetch.

(** Data that [fetchWithCache] returned for a URL is served from the
    cache, with no fetch, by every call whose clock reads less than five
    minutes after the time stamp of the entry, whatever the parser; that
    time stamp is the reading taken when the data were stored, or an
    older one when the data already came from the cache. *)
Theorem fetchWithCache_hit_within_ttl :
  forall (parserFn : jsstring -> Outcome D) (url : jsstring) (nowCheck nowStore : Z)
         (st st1 : ScraperState D) (d : D),
    fetchWithCache fetch parserFn url nowCheck nowStore st = (Ok d, st1) ->
    exists stamp,
      lookup url (cache st1) = Some (mkCacheEntry d stamp) /\
      (stamp = nowStore \/ (st1 = st /\ (nowCheck - stamp < CACHE_TTL_MS)%Z)) /\
      forall (parserFn' : jsstring -> Outcome D) (later laterStore : Z),
        (later - stamp < CACHE_TTL_MS)%Z ->
        fetchWithCache fetch parserFn' url later laterStore st1 = (Ok d, st1).
Proof.
  intros parserFn url nowCheck nowStore st st1 d. unfold fetchWithCache at 1.
  assert (Hhit : forall s stamp,
            lookup url (cache s) = Some (mkCacheEntry d stamp) ->
            forall (parserFn' : jsstring -> Outcome D) (later laterStore : Z),
              (later - stamp < CACHE_TTL_MS)%Z ->
              fetchWithCache fetch parserFn' url later laterStore s = (Ok d, s)).
  { intros s stamp Hl parserFn' later laterStore Hlt. unfold fetchWithCache.
    rewrite Hl. cbn [timestamp entryData].
    apply Z.ltb_lt in Hlt. now rewrite Hlt. }
  destruct (lookup url (cache st)) as [[d0 t0]|] eqn:El; cbn [timestamp entryData].
  - destruct (Z.ltb_spec (nowCheck - t0) CACHE_TTL_MS) as [Hlt|Hge].
    + intro H. inversion H; subst. exists t0. split; [exact El|].
      split; [right; auto|]. now apply Hhit.
    + destruct (fetch _ url) as [resp|e]; [|discriminate].
      destruct (negb (ok resp)); [discriminate|].
      destruct (parserFn (body resp)) as [d1|e]; [|discriminate].
      intro H. inversion H; subst. exists nowStore.
      assert (Hl : lookup url (Map_set url (mkCacheEntry d nowStore) (cache st))
                   = Some (mkCacheEntry d nowStore)) by apply lookup_Map_set.
      split; [exact Hl|]. split; [left; reflexivity|]. now apply Hhit.
  - destruct (fetch _ url) as [resp|e]; [|discriminate].
    destruct (negb (ok resp)); [discriminate|].
    destruct (parserFn (body resp)) as [d1|e]; [|discriminate].
    intro H. inversion H; subst. exists nowStore.
    assert (Hl : lookup url (Map_set url (mkCacheEntry d nowStore) (cache st))
                 = Some (mkCacheEntry d nowStore)) by apply lookup_Map_set.
    split; [exact Hl|]. split; [left; reflexivity|]. now apply Hhit.
Qed.

(** A call that fails (network error, HTTP status outside 2xx, parser
    exception) leaves the cache as it was: a stale entry is neither
    removed nor refreshed, and the failure itself is not cached. A call
    finding no fresh entry always goes to the network. *)
Theorem fetchWithCache_failure_keeps_cache :
  forall (parserFn : jsstring -> Outcome D) (url : jsstring) (nowCheck nowStore : Z)
         (st st1 : ScraperState D) (e : Error),
    fetchWithCache fetch parserFn url nowCheck nowStore st = (Throw e, st1) ->
    cache st1 = cache st /\ fetched st1 = fetched st ++ [url] /\
    forall cached, lookup url (cache st) = Some cached ->
                   (CACHE_TTL_MS <= nowCheck - timestamp cached)%Z.
Proof.
  intros parserFn url nowCheck nowStore st st1 e. unfold fetchWithCache.
  destruct (lookup url (cache st)) as [[d0 t0]|] eqn:El; cbn [timestamp entryData].
  - destruct (Z.ltb_spec (nowCheck - t0) CACHE_TTL_MS) as [Hlt|Hge]; [discriminate|].
    destruct (fetch _ url) as [resp|e'].
    + destruct (negb (ok resp)).
      * intro H. inversion H; subst. repeat split.
        intros c Hc. inversion Hc; subst. exact Hge.
      * destruct (parserFn (body resp)); [discriminate|].
        intro H. inversion H; subst. repeat split.
        intros c Hc. inversion Hc; subst. exact Hge.
    + intro H. inversion H; subst. repeat split.
      intros c Hc. inversion Hc; subst. exact Hge.
  - destruct (fetch _ url) as [resp|e'].
    + destruct (negb (ok resp)).
      * intro H. inversion H; subst. repeat split. intros c Hc. discriminate Hc.
      * destruct (parserFn (body resp)); [discriminate|].
        intro H. inversion H; subst. repeat split. intros c Hc. discriminate Hc.
    + intro H. inversion H; subst. repeat split. intros c Hc. discriminate Hc.
Qed.

End CacheFacts.

Lemma fetchWithCache_hit_within_ttl_witness :
  let stored := mkScraperState [(INOVA_URL, mkCacheEntry inovaTimes 1000%Z)] [INOVA_URL] in
  fetchWithCache pageOnce (fun _ => Ok inovaTimes) INOVA_URL 900 1000 emptyScraperState
  = (Ok inovaTimes, stored) /\
  fetchWithCache pageOnce (fun _ => Throw (newError (js "parser"))) INOVA_URL
    300999 301000 stored
  = (Ok inovaTimes, stored).
Proof.
  assert (H : fetchWithCache pageOnce (fun _ => Ok inovaTimes) INOVA_URL 900 1000
                emptyScraperState
              = (Ok inovaTimes,
                 mkScraperState [(INOVA_URL, mkCacheEntry inovaTimes 1000%Z)] [INOVA_URL]))
    by reflexivity.
  destruct (@fetchWithCache_hit_within_ttl _ pageOnce _ _ _ _ _ _ _ H)
    as (stamp & Hl & _ & Hlater).
  split; [exact H|].
  apply Hlater. cbn in Hl. inversion Hl. reflexivity.
Defined.

Lemma fetchWithCache_failure_keeps_cache_witness :
  let stale := mkScraperState [(INOVA_URL, mkCacheEntry inovaTimes 1000%Z)] [INOVA_URL] in
  cache (snd (fetchWithCache networkDown (fun _ => Ok inovaTimes) INOVA_URL
                301000 301001 stale))
  = cache stale.
Proof.
  exact (proj1 (@fetchWithCache_failure_keeps_cache _ networkDown
                  (fun _ => Ok inovaTimes) INOVA_URL 301000 301001
                  (mkScraperState [(INOVA_URL, mkCacheEntry inovaTimes 1000%Z)] [INOVA_URL])
                  _ _ eq_refl)).
Defined.

(** ** scraperService.js: the scrape of one facility *)


Section ScrapeFacts.
Context {host : Host}.



Variable fetch : Fetch.
Variable parseInova : jsstring -> list (jsstring * Z).
Variable URL_origin : jsstring -> option jsstring.
Variable extractWaitFromHtml : jsstring -> option Z.



End ScrapeFacts.


(** ** llmService.js: the transcription result *)

(** Every [TranscriptionResult] that [transcribeSymptomsFromAudio]
    returns has a non-empty transcript, trimmed, and a supported
    language code. *)
Theorem transcribe_result_valid :
  forall (host : Host) (env : Env) (backend : Backend) (input : value)
         (st st' : ModuleState) (result : TranscriptionResult),
    transcribeSymptomsFromAudio env backend input st = (Ok result, st') ->
    symptomsText result <> [] /\
    trim (symptomsText result) = symptomsText result /\
    includes SUPPORTED_LANGUAGES (transcriptLanguageCode result) = true.
Proof.
  intros host env backend input st st' result. unfold transcribeSymptomsFromAudio.
  destruct (validateAudioInput _) as [audio|e]; [|discriminate].
  destruct (callGeminiJson _ _ _ _ st) as [[parsed|e] st1]; [|discriminate].
  destruct (callGeminiJson _ _ _ _ st1) as [detected st2].
  set (text := trimmedString (prop (Some parsed) (js "symptomsText"))).
  assert (Htrim : trim text = text).
  { unfold text, trimmedString. destruct (asString _); [apply trim_idempotent | reflexivity]. }
  set (code0 := if includes SUPPORTED_LANGUAGES _ then _ else DEFAULT_LANGUAGE_CODE).
  assert (H0 : includes SUPPORTED_LANGUAGES code0 = true).
  { unfold code0.
    destruct (includes SUPPORTED_LANGUAGES (loweredString _)) eqn:E; [exact E | reflexivity]. }
  set (code1 := match detected with Ok _ => _ | Throw _ => code0 end).
  assert (H1 : includes SUPPORTED_LANGUAGES code1 = true).
  { unfold code1. destruct detected as [lp|e]; [|exact H0].
    destruct (includes SUPPORTED_LANGUAGES (loweredString (prop (Some lp) _))) eqn:E;
      [exact E | exact H0]. }
  destruct (nonEmpty text) eqn:Et; cbn [negb]; [|discriminate].
  intro H. inversion H; subst; clear H. cbn [symptomsText transcriptLanguageCode].
  split; [now apply nonEmpty_true|]. split; [exact Htrim|].
  destruct (str_eqb code1 (js "en") && true); [|exact H1].
  destruct (nonEmpty _ && negb _); [apply detectLanguage_supported | exact H1].
Qed.

Lemma transcribe_result_valid_witness :
  teluguFever <> [] /\ trim teluguFever = teluguFever /\
  includes SUPPORTED_LANGUAGES (js "te") = true.
Proof.
  exact (@transcribe_result_valid clinicHost keyedEnv (answersOnce transcriptText)
           audioInput initialState _ (mkTranscriptionResult teluguFever (js "te"))
           ltac:(vm_compute; reflexivity)).
Defined.
